(** * mpl/ocr: the command-line OCR client ([main.go])

    A shallow embedding of [main.go].  The program is a straight line of
    calls into the operating system (files, standard streams), the OAuth2
    library and the Vision SDK.  Every Go function of the file is a
    definition of the same name in a small monad [M] that threads the state
    of the outside world, logs each action that crosses the process boundary
    and stops at [log.Fatalf].

    The world is a file system (a map from cleaned paths to files and
    directories, which may be read-only or full), and what is left on
    standard input.  The libraries and the remote services are a parameter
    ([Collaborators]): every statement holds for whatever they answer.  Left
    out: the time stamp [log] writes, the wait for the user to type,
    permission bits and the umask, and [context.Context], which carries
    nothing the program reads. *)

From Stdlib Require Import ZArith Ascii String List Lia.
From stdpp Require Import base option gmap strings.
Import ListNotations.

Local Open Scope string_scope.
Local Open Scope Z_scope.

(** ** Strings as Go has them: sequences of bytes *)

Module GoString.

Definition bytes (s : string) : list ascii := list_ascii_of_string s.
Definition of_bytes (l : list ascii) : string := string_of_list_ascii l.

Definition isEmpty (s : string) : bool :=
  match s with EmptyString => true | String _ _ => false end.

(** [strings.Join(elems, sep)]. *)
Fixpoint join (sep : string) (elems : list string) : string :=
  match elems with
  | [] => ""
  | [e] => e
  | e :: rest => e ++ sep ++ join sep rest
  end.

(** Split at every occurrence of the byte [c]; [acc] is the element being
    read, most recent byte first. *)
Fixpoint splitOn (c : ascii) (acc : list ascii) (l : list ascii) : list string :=
  match l with
  | [] => [of_bytes (rev acc)]
  | x :: l' =>
      if Ascii.eqb x c then of_bytes (rev acc) :: splitOn c [] l'
      else splitOn c (x :: acc) l'
  end.

Definition split (c : ascii) (s : string) : list string := splitOn c [] (bytes s).

End GoString.

(** ** [net/url]: QueryEscape *)

Module url.

Definition isAlnum (c : ascii) : bool :=
  let n := Z.of_nat (nat_of_ascii c) in
  ((48 <=? n) && (n <=? 57)) || ((65 <=? n) && (n <=? 90)) || ((97 <=? n) && (n <=? 122)).

(** [shouldEscape(c, encodeQueryComponent)]: the unreserved bytes of
    RFC 3986 stay, every other byte is escaped. *)
Definition shouldEscape (c : ascii) : bool :=
  if isAlnum c then false
  else if Ascii.eqb c "-" || Ascii.eqb c "_" || Ascii.eqb c "." || Ascii.eqb c "~"
  then false else true.

Definition upperhex (n : Z) : ascii :=
  ascii_of_nat (Z.to_nat (if n <? 10 then 48 + n else 55 + n)).

Definition escapeByte (c : ascii) : list ascii :=
  if Ascii.eqb c " " then ["+"%char]
  else if shouldEscape c then
    let n := Z.of_nat (nat_of_ascii c) in
    ["%"%char; upperhex (Z.shiftr n 4); upperhex (Z.land n 15)]
  else [c].

Definition QueryEscape (s : string) : string :=
  GoString.of_bytes (flat_map escapeByte (GoString.bytes s)).

End url.

(** ** [path/filepath] on a Unix system: Clean and Join *)

Module filepath.

(** One element of the path read by [Clean], [out] being the elements kept
    so far, last one first: empty elements and [.] vanish, [..] removes the
    element before it when there is one to remove, is dropped at the root
    and is kept otherwise. *)
Definition cleanStep (rooted : bool) (out : list string) (e : string) : list string :=
  if GoString.isEmpty e then out
  else if String.eqb e "." then out
  else if String.eqb e ".." then
    match out with
    | prev :: out' => if String.eqb prev ".." then e :: out else out'
    | [] => if rooted then out else [e]
    end
  else e :: out.

Definition isRooted (path : string) : bool :=
  match path with String c _ => Ascii.eqb c "/" | EmptyString => false end.

Definition elements (path : string) : list string :=
  rev (fold_left (cleanStep (isRooted path)) (GoString.split "/" path) []).

Definition Clean (path : string) : string :=
  let rooted := isRooted path in
  match elements path with
  | [] => if rooted then "/" else "."
  | es => (if rooted then "/" else "") ++ GoString.join "/" es
  end.

(** [Join]: empty leading elements are ignored, the rest is joined with the
    separator and the result is cleaned. *)
Fixpoint Join (elem : list string) : string :=
  match elem with
  | [] => ""
  | e :: rest =>
      if GoString.isEmpty e then Join rest else Clean (GoString.join "/" elem)
  end.

(** The directory an entry lives in, for a cleaned path. *)
Definition Dir (path : string) : string :=
  let rooted := isRooted path in
  match removelast (elements path) with
  | [] => if rooted then "/" else "."
  | es => (if rooted then "/" else "") ++ GoString.join "/" es
  end.

End filepath.

(** ** The values the libraries hand to [main.go] *)

(** A Go [error] is kept as its message; [nil] is [None]. *)
Definition error := string.

Inductive result (A : Type) : Type :=
| Ok (a : A)
| Err (e : error).
Arguments Ok {A} a.
Arguments Err {A} e.

Module oauth2.

Record Token := mkToken {
  AccessToken : string;
  TokenType : string;
  RefreshToken : string;
  Expiry : string
}.

Record Config := mkConfig {
  ClientID : string;
  ClientSecret : string;
  AuthURL : string;
  TokenURL : string;
  RedirectURL : string;
  Scopes : list string
}.

(** [config.TokenSource(ctx, tok)]: the token, renewed through the
    configuration when it expires. *)
Record TokenSource := mkTokenSource {
  ts_config : Config;
  ts_token : Token
}.

Definition zeroToken : Token := mkToken "" "" "" "".

Inductive AuthCodeOption := AccessTypeOnline | AccessTypeOffline.

End oauth2.

Module vision.

Inductive ClientOption :=
| WithCredentialsFile (filename : string)
| WithTokenSource (ts : oauth2.TokenSource).

(** The SDK's client, as an opaque handle. *)
Record ImageAnnotatorClient := mkClient { handle : Z }.

Record Image := mkImage { Content : string }.

Record ImageContext := mkImageContext { LanguageHints : list string }.

Record EntityAnnotation := mkAnnotation {
  Locale : string;
  Description : string
}.

End vision.

(** ** The outside world *)

Inductive Node :=
| NDir
| NFile (data : string).

(** The file system is a map from cleaned paths (relative ones are taken from
    the working directory) to what is there.  [readonly] is a file system
    that refuses every change (EROFS), [space] the number of bytes the device
    can still take (ENOSPC beyond it), [stdin] what is left to read on
    standard input. *)
Record World := mkWorld {
  fs : gmap string Node;
  readonly : bool;
  space : nat;
  stdin : string
}.

(** Open files: the name given to open and the entry it reached. *)
Record File := mkFile {
  f_name : string;
  f_key : string
}.

(** What crosses the process boundary, with the arguments of the call. *)
Inductive Event :=
| EvFatal (msg : string)
| EvStdout (s : string)
| EvStdin
| EvMkdirAll (path : string) (perm : Z)
| EvOpen (name : string)
| EvOpenFile (name : string) (flag : Z) (perm : Z)
| EvReadFile (name : string)
| EvRead (name : string)
| EvWrite (name : string) (data : string)
| EvClose (name : string)
| EvExchange (config : oauth2.Config) (code : string)
| EvNewClient (opt : vision.ClientOption)
| EvDetectTexts (cl : vision.ImageAnnotatorClient) (img : vision.Image)
    (ictx : option vision.ImageContext) (maxResults : Z).

Definition isFileIO (e : Event) : bool :=
  match e with
  | EvMkdirAll _ _ | EvOpen _ | EvOpenFile _ _ _ | EvReadFile _
  | EvRead _ | EvWrite _ _ | EvClose _ => true
  | _ => false
  end.

Definition isNetwork (e : Event) : bool :=
  match e with
  | EvExchange _ _ | EvNewClient _ | EvDetectTexts _ _ _ _ => true
  | _ => false
  end.

(** Reading or creating credentials: the credential files, the token cache
    and the OAuth2 exchange are reached only through these. *)
Definition touchesCredentials (e : Event) : bool :=
  match e with
  | EvMkdirAll _ _ | EvOpen _ | EvOpenFile _ _ _ | EvReadFile _
  | EvRead _ | EvWrite _ _ | EvExchange _ _ | EvNewClient _ => true
  | _ => false
  end.

(** Everything written to standard output, in order. *)
Fixpoint stdout_of (tr : list Event) : string :=
  match tr with
  | [] => ""
  | EvStdout s :: tr' => s ++ stdout_of tr'
  | _ :: tr' => stdout_of tr'
  end.

(** ** The monad of the program *)

Inductive Outcome (A : Type) : Type :=
| Ret (a : A)
| Exit (code : Z).
Arguments Ret {A} a.
Arguments Exit {A} code.

Definition M (A : Type) : Type := World -> Outcome A * World * list Event.

Definition ret {A} (a : A) : M A := fun w => (Ret a, w, []).

Definition bind {A B} (m : M A) (k : A -> M B) : M B :=
  fun w =>
    match m w with
    | (Ret a, w1, t1) =>
        match k a w1 with
        | (o, w2, t2) => (o, w2, (t1 ++ t2)%list)
        end
    | (Exit c, w1, t1) => (Exit c, w1, t1)
    end.

Declare Scope go_scope.
Delimit Scope go_scope with go.
Notation "x <- m ;; k" := (bind m (fun x => k))
  (at level 100, m at next level, right associativity) : go_scope.
Notation "m ;;; k" := (bind m (fun _ => k))
  (at level 100, right associativity) : go_scope.
Local Open Scope go_scope.

Definition emit (e : Event) : M unit := fun w => (Ret tt, w, [e]).

Definition outcome {A} (r : Outcome A * World * list Event) : Outcome A := fst (fst r).
Definition world {A} (r : Outcome A * World * list Event) : World := snd (fst r).
Definition events {A} (r : Outcome A * World * list Event) : list Event := snd r.

Definition nl : string := String (ascii_of_nat 10) "".

Definition setFs (w : World) (fs' : gmap string Node) : World :=
  mkWorld fs' (readonly w) (space w) (stdin w).

(** ** [log] and [fmt] *)

Module log.

(** [log.Fatalf]: the message goes to standard error and the process exits
    with status 1; nothing after the call runs, deferred calls included.
    The time stamp the logger puts before the message is left out. *)
Definition Fatalf {A} (msg : string) : M A := fun w => (Exit 1, w, [EvFatal msg]).

End log.

Module fmt.

Definition Printf (s : string) : M unit := emit (EvStdout s).

Definition Println (s : string) : M unit := emit (EvStdout (s ++ nl)).

(** White space for [Scan]: space, tab, newline, vertical tab, form feed,
    carriage return (standard input is taken to be ASCII). *)
Definition isSpace (c : ascii) : bool :=
  let n := nat_of_ascii c in
  (Nat.eqb n 32 || ((9 <=? n)%nat && (n <=? 13)%nat)).

Fixpoint skipSpace (l : list ascii) : list ascii :=
  match l with
  | c :: l' => if isSpace c then skipSpace l' else l
  | [] => []
  end.

Fixpoint token (l : list ascii) : list ascii * list ascii :=
  match l with
  | c :: l' =>
      if isSpace c then ([], l)
      else let (t, rest) := token l' in (c :: t, rest)
  | [] => ([], [])
  end.

(** One string operand read from [input]: the next run of bytes that are
    not white space, and what is left of the input; the byte that ends the
    run is read too. *)
Definition scanString (input : string) : result string * string :=
  match token (skipSpace (GoString.bytes input)) with
  | ([], _) => (Err "EOF", "")
  | (t, rest) => (Ok (GoString.of_bytes t), GoString.of_bytes (tl rest))
  end.

(** [fmt.Scan(&code)] on standard input. *)
Definition Scan : M (result string) := fun w =>
  (Ret (fst (scanString (stdin w))),
   mkWorld (fs w) (readonly w) (space w) (snd (scanString (stdin w))), [EvStdin]).

End fmt.

(** ** [os] and [io/ioutil] over the file system of the world *)

Module os.

Definition O_RDONLY : Z := 0x0.
Definition O_WRONLY : Z := 0x1.
Definition O_RDWR : Z := 0x2.
Definition O_CREATE : Z := 0x40.
Definition O_TRUNC : Z := 0x200.

Definition hasFlag (flag bit : Z) : bool := Z.land flag bit =? bit.
Definition forWriting (flag : Z) : bool := negb (Z.land flag 0x3 =? O_RDONLY).

(** The working directory, the root and what lies above the working
    directory are there without being listed. *)
Definition isAnchor (key : string) : bool :=
  forallb (String.eqb "..") (filepath.elements key).

Definition stat (fs : gmap string Node) (key : string) : option Node :=
  match fs !! key with
  | Some n => Some n
  | None => if isAnchor key then Some NDir else None
  end.

Fixpoint prefixes {A} (l : list A) : list (list A) :=
  match l with
  | [] => []
  | x :: l' => [x] :: map (cons x) (prefixes l')
  end.

(** A cleaned path and the directories above it, outermost first. *)
Definition lineage (key : string) : list string :=
  map (fun es => (if filepath.isRooted key then "/" else "") ++ GoString.join "/" es)
      (prefixes (filepath.elements key)).

Fixpoint mkdirs (ro : bool) (keys : list string) (fs : gmap string Node)
  : option error * gmap string Node :=
  match keys with
  | [] => (None, fs)
  | k :: ks =>
      match stat fs k with
      | Some NDir => mkdirs ro ks fs
      | Some (NFile _) => (Some ("mkdir " ++ k ++ ": not a directory"), fs)
      | None =>
          if ro then (Some ("mkdir " ++ k ++ ": read-only file system"), fs)
          else mkdirs ro ks (<[k := NDir]> fs)
      end
  end.

(** [os.MkdirAll(path, perm)]: nothing to do where the directory is there,
    an error where a file is in the way or the file system refuses. *)
Definition MkdirAll (path : string) (perm : Z) : M (option error) := fun w =>
  match mkdirs (readonly w) (lineage (filepath.Clean path)) (fs w) with
  | (err, fs') => (Ret err, setFs w fs', [EvMkdirAll path perm])
  end.

(** [os.Open(name)]: for reading; a directory opens too. *)
Definition Open (name : string) : M (result File) := fun w =>
  let key := filepath.Clean name in
  (Ret (match stat (fs w) key with
        | Some _ => Ok (mkFile name key)
        | None => Err ("open " ++ name ++ ": no such file or directory")
        end), w, [EvOpen name]).

(** [os.OpenFile(name, flag, perm)]. *)
Definition OpenFile (name : string) (flag perm : Z) : M (result File) := fun w =>
  let key := filepath.Clean name in
  let f := mkFile name key in
  let refuse (why : string) := (Ret (Err ("open " ++ name ++ ": " ++ why)), w, [EvOpenFile name flag perm]) in
  match stat (fs w) key with
  | Some NDir =>
      if forWriting flag then refuse "is a directory"
      else (Ret (Ok f), w, [EvOpenFile name flag perm])
  | Some (NFile data) =>
      if forWriting flag && readonly w then refuse "read-only file system"
      else if forWriting flag && hasFlag flag O_TRUNC then
        (Ret (Ok f),
         mkWorld (<[key := NFile ""]> (fs w)) (readonly w)
                 (space w + String.length data)%nat (stdin w),
         [EvOpenFile name flag perm])
      else (Ret (Ok f), w, [EvOpenFile name flag perm])
  | None =>
      if hasFlag flag O_CREATE then
        match stat (fs w) (filepath.Dir key) with
        | Some NDir =>
            if readonly w then refuse "read-only file system"
            else (Ret (Ok f), setFs w (<[key := NFile ""]> (fs w)), [EvOpenFile name flag perm])
        | Some (NFile _) => refuse "not a directory"
        | None => refuse "no such file or directory"
        end
      else refuse "no such file or directory"
  end.

(** Everything an open file holds, as [ioutil.ReadAll] and the JSON decoder
    read it. *)
Definition ReadAll (f : File) : M (result string) := fun w =>
  (Ret (match stat (fs w) (f_key f) with
        | Some (NFile data) => Ok data
        | Some NDir => Err ("read " ++ f_name f ++ ": is a directory")
        | None => Err ("read " ++ f_name f ++ ": bad file descriptor")
        end), w, [EvRead (f_name f)]).

(** One [Write] at the end of the file: when the device has no room for all
    of [data] the part that fits is written and the call fails. *)
Definition Write (f : File) (data : string) : M (option error) := fun w =>
  match fs w !! f_key f with
  | Some (NFile old) =>
      let n := String.length data in
      if (n <=? space w)%nat then
        (Ret None,
         mkWorld (<[f_key f := NFile (old ++ data)]> (fs w)) (readonly w)
                 (space w - n)%nat (stdin w),
         [EvWrite (f_name f) data])
      else
        (Ret (Some ("write " ++ f_name f ++ ": no space left on device")),
         mkWorld (<[f_key f := NFile (old ++ String.substring 0 (space w) data)]> (fs w))
                 (readonly w) 0%nat (stdin w),
         [EvWrite (f_name f) data])
  | _ => (Ret (Some ("write " ++ f_name f ++ ": bad file descriptor")), w,
          [EvWrite (f_name f) data])
  end.

Definition Close (f : File) : M (option error) := fun w => (Ret None, w, [EvClose (f_name f)]).

End os.

Module ioutil.

(** [ioutil.ReadFile(filename)]: open, read to the end, close. *)
Definition ReadFile (filename : string) : M (result string) := fun w =>
  (Ret (match os.stat (fs w) (filepath.Clean filename) with
        | Some (NFile data) => Ok data
        | Some NDir => Err ("read " ++ filename ++ ": is a directory")
        | None => Err ("open " ++ filename ++ ": no such file or directory")
        end), w, [EvReadFile filename]).

End ioutil.

(** ** The libraries the program delegates to

    JSON coding of a token, the OAuth2 client, and the Vision SDK with the
    remote services behind them.  The program is verified for whatever they
    answer. *)
Class Collaborators := {
  (** [json.NewDecoder(f).Decode(t)] on the bytes of [f], [t] being a fresh
      token: the token as the decoder leaves it, and its error. *)
  json_Decode : string -> oauth2.Token * option error;
  (** The JSON text of a token; the encoder writes it with a newline. *)
  json_Marshal : oauth2.Token -> string;
  google_ConfigFromJSON : string -> list string -> result oauth2.Config;
  oauth2_AuthCodeURL : oauth2.Config -> string -> oauth2.AuthCodeOption -> string;
  (** The token endpoint's answer to an authorization code. *)
  oauth2_Exchange : oauth2.Config -> string -> result oauth2.Token;
  vision_DefaultAuthScopes : list string;
  (** The SDK builds a client from an option; with a credentials file it
      reads that file itself. *)
  vision_NewClient : vision.ClientOption -> gmap string Node -> result vision.ImageAnnotatorClient;
  (** The remote text detection. *)
  vision_Annotate : vision.ImageAnnotatorClient -> vision.Image ->
                    option vision.ImageContext -> Z -> result (list vision.EntityAnnotation)
}.

(** The three flag variables, as [flag.Parse()] leaves them. *)
Record Flags := mkFlags {
  flagServiceAccount : string;
  flagClientID : string;
  flagInput : string
}.

Section Program.

Context `{Collaborators}.

(** *** Calls into the libraries, as actions *)

Definition Decode (f : File) : M (oauth2.Token * option error) :=
  r <- os.ReadAll f ;;
  match r with
  | Err err => ret (oauth2.zeroToken, Some err)
  | Ok data => ret (json_Decode data)
  end.

Definition Encode (f : File) (token : oauth2.Token) : M (option error) :=
  os.Write f (json_Marshal token ++ nl).

Definition Exchange (config : oauth2.Config) (code : string) : M (result oauth2.Token) :=
  emit (EvExchange config code) ;;; ret (oauth2_Exchange config code).

Definition TokenSource (config : oauth2.Config) (tok : oauth2.Token) : oauth2.TokenSource :=
  oauth2.mkTokenSource config tok.

Definition NewImageAnnotatorClient (opt : vision.ClientOption)
  : M (result vision.ImageAnnotatorClient) :=
  fun w => (Ret (vision_NewClient opt (fs w)), w, [EvNewClient opt]).

Definition NewImageFromReader (r : File) : M (result vision.Image) :=
  b <- os.ReadAll r ;;
  match b with
  | Err err => ret (Err err)
  | Ok bytes => ret (Ok (vision.mkImage bytes))
  end.

Definition DetectTexts (cl : vision.ImageAnnotatorClient) (img : vision.Image)
    (ictx : option vision.ImageContext) (maxResults : Z)
  : M (result (list vision.EntityAnnotation)) :=
  emit (EvDetectTexts cl img ictx maxResults) ;;;
  ret (vision_Annotate cl img ictx maxResults).

(** [for _, x := range xs { body }] *)
Fixpoint forRange {A} (xs : list A) (body : A -> M unit) : M unit :=
  match xs with
  | [] => ret tt
  | x :: xs' => body x ;;; forRange xs' body
  end.

(** *** [main.go]

    A Go result [(T, error)] is a [result T]; [log.Fatalf] ends the run, so
    what follows it in the source is what follows it here. *)

Definition scopeURLs : list string := vision_DefaultAuthScopes.

Definition tokenCacheFile : M (result string) :=
  let tokenCacheDir := "./credentials" in
  _ <- os.MkdirAll tokenCacheDir 0x1c0 (* 0700 *) ;;
  ret (Ok (filepath.Join [tokenCacheDir; url.QueryEscape "cache.json"])).

Definition tokenFromFile (file : string) : M (result oauth2.Token) :=
  r <- os.Open file ;;
  match r with
  | Err err => ret (Err err)
  | Ok f =>
      d <- Decode f ;;
      os.Close f (* defer f.Close() *) ;;;
      match d with
      | (t, None) => ret (Ok t)
      | (_, Some err) => ret (Err err)
      end
  end.

Definition getTokenFromWeb (config : oauth2.Config) : M oauth2.Token :=
  let authURL := oauth2_AuthCodeURL config "state-token" oauth2.AccessTypeOffline in
  fmt.Printf ("Go to the following link in your browser then type the "
              ++ "authorization code: " ++ nl ++ authURL ++ nl) ;;;
  r <- fmt.Scan ;;
  code <- match r with
          | Err err => log.Fatalf ("Unable to read authorization code " ++ err)
          | Ok code => ret code
          end ;;
  r <- Exchange config code ;;
  match r with
  | Err err => log.Fatalf ("Unable to retrieve token from web " ++ err)
  | Ok tok => ret tok
  end.

Definition saveToken (file : string) (token : oauth2.Token) : M unit :=
  fmt.Printf ("Saving credential file to: " ++ file ++ nl) ;;;
  r <- os.OpenFile file (Z.lor (Z.lor os.O_RDWR os.O_CREATE) os.O_TRUNC) 0x180 (* 0600 *) ;;
  match r with
  | Err err => log.Fatalf ("Unable to cache oauth token: " ++ err)
  | Ok f =>
      _ <- Encode f token ;;
      os.Close f (* defer f.Close() *) ;;;
      ret tt
  end.

Definition getToken (config : oauth2.Config) : M (result oauth2.Token) :=
  r <- tokenCacheFile ;;
  match r with
  | Err err => ret (Err ("unable to get path to cached credential file. " ++ err))
  | Ok cacheFile =>
      r <- tokenFromFile cacheFile ;;
      match r with
      | Err _ =>
          tok <- getTokenFromWeb config ;;
          saveToken cacheFile tok ;;;
          ret (Ok tok)
      | Ok tok => ret (Ok tok)
      end
  end.

Variable flags : Flags.

Definition visionClient : M (result vision.ImageAnnotatorClient) :=
  if negb (GoString.isEmpty (flagServiceAccount flags)) then
    NewImageAnnotatorClient (vision.WithCredentialsFile (flagServiceAccount flags))
  else
    r <- ioutil.ReadFile (flagClientID flags) ;;
    match r with
    | Err err => ret (Err ("unable to read client id file: " ++ err))
    | Ok b =>
        match google_ConfigFromJSON b scopeURLs with
        | Err err => ret (Err ("unable to parse client id file to config: " ++ err))
        | Ok config =>
            r <- getToken config ;;
            match r with
            | Err err => ret (Err err)
            | Ok tok =>
                let ts := TokenSource config tok in
                NewImageAnnotatorClient (vision.WithTokenSource ts)
            end
        end
    end.

(** [flag.Parse()] has filled [flags]. *)
Definition main : M unit :=
  (if GoString.isEmpty (flagServiceAccount flags) && GoString.isEmpty (flagClientID flags) then
     log.Fatalf "either -service_account or -client_id must be specified"
   else if negb (GoString.isEmpty (flagServiceAccount flags))
           && negb (GoString.isEmpty (flagClientID flags)) then
     log.Fatalf "-service_account and -client_id are mutually exclusive"
   else ret tt) ;;;
  (if GoString.isEmpty (flagInput flags) then
     log.Fatalf "-input needs to be specified"
   else ret tt) ;;;
  r <- visionClient ;;
  cl <- match r with
        | Err err => log.Fatalf ("Failed to create client: " ++ err)
        | Ok cl => ret cl
        end ;;
  r <- os.Open (flagInput flags) ;;
  file <- match r with
          | Err err => log.Fatalf ("Failed to read file: " ++ err)
          | Ok file => ret file
          end ;;
  r <- NewImageFromReader file ;;
  image <- match r with
           | Err err => log.Fatalf ("Failed to create image entity: " ++ err)
           | Ok image => ret image
           end ;;
  r <- DetectTexts cl image None (-1) ;;
  texts <- match r with
           | Err err => log.Fatalf ("Error detecting text: " ++ err)
           | Ok texts => ret texts
           end ;;
  fmt.Println "Text:" ;;;
  forRange texts (fun t => fmt.Println (vision.Description t)) ;;;
  os.Close file (* defer file.Close() *) ;;;
  ret tt.

End Program.

(** ** A concrete environment

    One fixed behaviour of the libraries and the remote services, on which
    the program can be run: a client of the OCR service, its token, and an
    image with two words on it. *)
Module Fixture.

Definition token : oauth2.Token :=
  oauth2.mkToken "ya29.a0Af" "Bearer" "1//0gRefresh" "2017-03-01T12:00:00Z".

Definition marshal (t : oauth2.Token) : string :=
  "{access_token:" ++ oauth2.AccessToken t ++ ",token_type:" ++ oauth2.TokenType t
  ++ ",refresh_token:" ++ oauth2.RefreshToken t ++ ",expiry:" ++ oauth2.Expiry t ++ "}".

Definition tokenText : string := Eval cbv in marshal token.

Definition config : oauth2.Config :=
  oauth2.mkConfig "1234.apps.example.com" "s3cret"
    "https://accounts.example.com/o/oauth2/auth"
    "https://accounts.example.com/o/oauth2/token"
    "urn:ietf:wg:oauth:2.0:oob"
    ["https://www.googleapis.com/auth/cloud-platform"].

Definition annotations : list vision.EntityAnnotation :=
  [vision.mkAnnotation "en" "hello world";
   vision.mkAnnotation "" "hello";
   vision.mkAnnotation "" "world"].

Definition startsWith (p s : string) : bool := String.prefix p s.

#[local] Instance libraries : Collaborators := {|
  json_Decode data :=
    if startsWith tokenText data then (token, None)
    else (oauth2.zeroToken, Some "invalid character looking for beginning of value");
  json_Marshal := marshal;
  google_ConfigFromJSON b scopes :=
    if String.eqb b "client-id-json"
    then Ok (oauth2.mkConfig (oauth2.ClientID config) (oauth2.ClientSecret config)
               (oauth2.AuthURL config) (oauth2.TokenURL config)
               (oauth2.RedirectURL config) scopes)
    else Err "unexpected end of JSON input";
  oauth2_AuthCodeURL c state opt :=
    oauth2.AuthURL c ++ "?client_id=" ++ oauth2.ClientID c ++ "&state=" ++ state;
  oauth2_Exchange c code :=
    if String.eqb code "4/P7q7W91a" then Ok token else Err "oauth2: cannot fetch token: 400 Bad Request";
  vision_DefaultAuthScopes := ["https://www.googleapis.com/auth/cloud-platform"];
  vision_NewClient opt files :=
    match opt with
    | vision.WithCredentialsFile name =>
        match files !! filepath.Clean name with
        | Some (NFile "service-account-json") => Ok (vision.mkClient 1)
        | _ => Err "google: could not read credentials"
        end
    | vision.WithTokenSource _ => Ok (vision.mkClient 2)
    end;
  vision_Annotate cl img ictx maxResults :=
    if String.eqb (vision.Content img) "PNG:hello world" then Ok annotations
    else Ok []
|}.

Definition files : gmap string Node :=
  <["sa.json" := NFile "service-account-json"]>
  (<["client.json" := NFile "client-id-json"]>
  (<["scan.png" := NFile "PNG:hello world"]> ∅)).

(** A first run: nothing cached yet, the user is about to type the code. *)
Definition fresh : World := mkWorld files false 4096 ("4/P7q7W91a" ++ nl).

(** A later run: the token is in the cache. *)
Definition cached : World :=
  mkWorld (<["credentials/cache.json" := NFile (tokenText ++ nl)]>
           (<["credentials" := NDir]> files)) false 4096 "".

(** A run that finds the cache file damaged. *)
Definition stale : World :=
  mkWorld (<["credentials/cache.json" := NFile "{access_tok"]>
           (<["credentials" := NDir]> files)) false 4096 ("4/P7q7W91a" ++ nl).

(** A first run on a device that is full. *)
Definition full : World :=
  mkWorld (<["credentials" := NDir]> files) false 0 ("4/P7q7W91a" ++ nl).

End Fixture.

(** ** Vocabulary of the statements *)

(** A trace in which every event satisfies [P]. *)
Definition emitsOnly {A} (P : Event -> Prop) (m : M A) : Prop :=
  forall w, Forall P (events (m w)).

Definition isDetect (e : Event) : bool :=
  match e with EvDetectTexts _ _ _ _ => true | _ => false end.

Definition isFatal (e : Event) : bool :=
  match e with EvFatal _ => true | _ => false end.

(** What resolving a token may do: the cache directory and file, the
    console, the token endpoint, and the fatal exit. *)
Definition tokenEvent (e : Event) : bool :=
  match e with
  | EvReadFile _ | EvNewClient _ | EvDetectTexts _ _ _ _ => false
  | _ => true
  end.

(** The steps of the interactive flow: the console, the token endpoint, and
    the rewriting of a file. *)
Definition interactive (e : Event) : bool :=
  match e with
  | EvStdout _ | EvStdin | EvExchange _ _ | EvOpenFile _ _ _ | EvWrite _ _ => true
  | _ => false
  end.

(** Lines as [fmt.Println] writes them. *)
Fixpoint unlines (l : list string) : string :=
  match l with
  | [] => ""
  | s :: l' => s ++ nl ++ unlines l'
  end.

Definition cacheFile : string := "credentials/cache.json".

Definition saveFlags : Z := Z.lor (Z.lor os.O_RDWR os.O_CREATE) os.O_TRUNC.

(** The file system once [tokenCacheFile] has asked for the cache directory:
    it is added where nothing is in its place and the file system accepts. *)
Definition withCacheDir (w : World) : gmap string Node :=
  match fs w !! "credentials" with
  | Some _ => fs w
  | None => if readonly w then fs w else <["credentials" := NDir]> (fs w)
  end.

Section Vocabulary.

Context `{Collaborators}.

Definition printed (t : vision.EntityAnnotation) : Event :=
  EvStdout (vision.Description t ++ nl).

(** What [main] does once the flags are accepted: everything after the
    client is there, by cases on what the world holds. *)
Definition afterClient (flags : Flags) (cl : vision.ImageAnnotatorClient) (w : World)
  : Outcome unit * list Event :=
  let input := flagInput flags in
  match os.stat (fs w) (filepath.Clean input) with
  | None =>
      (Exit 1, [EvOpen input;
                EvFatal ("Failed to read file: open " ++ input ++ ": no such file or directory")])
  | Some NDir =>
      (Exit 1, [EvOpen input; EvRead input;
                EvFatal ("Failed to create image entity: read " ++ input ++ ": is a directory")])
  | Some (NFile data) =>
      let image := vision.mkImage data in
      match vision_Annotate cl image None (-1) with
      | Err err =>
          (Exit 1, [EvOpen input; EvRead input; EvDetectTexts cl image None (-1);
                    EvFatal ("Error detecting text: " ++ err)])
      | Ok texts =>
          (Ret tt, ([EvOpen input; EvRead input; EvDetectTexts cl image None (-1);
                     EvStdout ("Text:" ++ nl)] ++ map printed texts
                    ++ [EvClose input])%list)
      end
  end.

Definition prompt (config : oauth2.Config) : Event :=
  EvStdout ("Go to the following link in your browser then type the "
            ++ "authorization code: " ++ nl
            ++ oauth2_AuthCodeURL config "state-token" oauth2.AccessTypeOffline ++ nl).

Definition cacheMiss (w : World) : Prop :=
  fs w !! cacheFile = None
  \/ exists data err,
      fs w !! cacheFile = Some (NFile data) /\ snd (json_Decode data) = Some err.

End Vocabulary.

(** Events that need neither the user nor a change to the file system. *)
Definition unattended (e : Event) : bool :=
  match e with
  | EvStdin | EvExchange _ _ | EvMkdirAll _ _ | EvOpenFile _ _ _ | EvWrite _ _
  | EvReadFile _ => false
  | _ => true
  end.




(** * Properties *)

(** ** Strings *)

Lemma isEmpty_true s : GoString.isEmpty s = true <-> s = "".
Proof. destruct s; simpl; split; congruence. Qed.

Lemma isEmpty_false s : GoString.isEmpty s = false <-> s <> "".
Proof. destruct s; simpl; split; congruence. Qed.

Example Clean_examples :
  map filepath.Clean ["./credentials"; "a//b/./c/.."; "../../x"; "/../a"; ""; "a/.."; "/"]
  = ["credentials"; "a/b"; "../../x"; "/a"; "."; "."; "/"].
Proof. reflexivity. Qed.

Example QueryEscape_examples :
  map url.QueryEscape ["cache.json"; "a b&c"; "x/y=~z"] = ["cache.json"; "a+b%26c"; "x%2Fy%3D~z"].
Proof. reflexivity. Qed.

Example Dir_examples :
  map filepath.Dir ["credentials/cache.json"; "credentials"; "/a"; "/a/b"] = ["credentials"; "."; "/"; "/a"].
Proof. reflexivity. Qed.

(** ** Traces *)

Section EmitsOnly.

Context (P : Event -> Prop).

Lemma emitsOnly_ret {A} (a : A) : emitsOnly P (ret a).
Proof. intros w. constructor. Qed.

Lemma emitsOnly_one {A} (m : M A) e :
  P e -> (forall w, events (m w) = [e]) -> emitsOnly P m.
Proof. intros He Hm w. rewrite Hm. repeat constructor. exact He. Qed.

Lemma emitsOnly_bind {A B} (m : M A) (k : A -> M B) :
  emitsOnly P m -> (forall a, emitsOnly P (k a)) -> emitsOnly P (bind m k).
Proof.
  intros Hm Hk w. specialize (Hm w). unfold bind.
  destruct (m w) as [[[a|c] w1] t1]; simpl in *.
  - specialize (Hk a w1). destruct (k a w1) as [[o w2] t2]; simpl in *.
    apply Forall_app; split; assumption.
  - assumption.
Qed.

End EmitsOnly.

Section Alphabet.

Context `{Collaborators}.
Context (P : Event -> Prop).

Lemma emitsOnly_emit e : P e -> emitsOnly P (emit e).
Proof. intros He. apply emitsOnly_one with e; auto. Qed.

Lemma emitsOnly_Fatalf {A} msg : P (EvFatal msg) -> emitsOnly P (@log.Fatalf A msg).
Proof. intros He. apply emitsOnly_one with (EvFatal msg); auto. Qed.

Lemma emitsOnly_Scan : P EvStdin -> emitsOnly P fmt.Scan.
Proof.
  intros He. apply emitsOnly_one with EvStdin; auto.
Qed.

Lemma emitsOnly_MkdirAll path perm :
  P (EvMkdirAll path perm) -> emitsOnly P (os.MkdirAll path perm).
Proof.
  intros He. apply emitsOnly_one with (EvMkdirAll path perm); auto.
  intros w. unfold os.MkdirAll. destruct (os.mkdirs _ _ _). reflexivity.
Qed.

Lemma emitsOnly_Open name : P (EvOpen name) -> emitsOnly P (os.Open name).
Proof. intros He. apply emitsOnly_one with (EvOpen name); auto. Qed.

Lemma emitsOnly_OpenFile name flag perm :
  P (EvOpenFile name flag perm) -> emitsOnly P (os.OpenFile name flag perm).
Proof.
  intros He. apply emitsOnly_one with (EvOpenFile name flag perm); auto.
  intros w. unfold os.OpenFile.
  repeat match goal with
         | |- context [match ?x with _ => _ end] => destruct x
         end; reflexivity.
Qed.

Lemma emitsOnly_ReadAll f : P (EvRead (f_name f)) -> emitsOnly P (os.ReadAll f).
Proof. intros He. apply emitsOnly_one with (EvRead (f_name f)); auto. Qed.

Lemma emitsOnly_Write f data :
  P (EvWrite (f_name f) data) -> emitsOnly P (os.Write f data).
Proof.
  intros He. apply emitsOnly_one with (EvWrite (f_name f) data); auto.
  intros w. unfold os.Write.
  repeat match goal with
         | |- context [match ?x with _ => _ end] => destruct x
         end; reflexivity.
Qed.

Lemma emitsOnly_Close f : P (EvClose (f_name f)) -> emitsOnly P (os.Close f).
Proof. intros He. apply emitsOnly_one with (EvClose (f_name f)); auto. Qed.

Lemma emitsOnly_ReadFile name : P (EvReadFile name) -> emitsOnly P (ioutil.ReadFile name).
Proof. intros He. apply emitsOnly_one with (EvReadFile name); auto. Qed.

Lemma emitsOnly_NewClient opt :
  P (EvNewClient opt) -> emitsOnly P (NewImageAnnotatorClient opt).
Proof. intros He. apply emitsOnly_one with (EvNewClient opt); auto. Qed.

End Alphabet.

(** Walks through a computation, one call at a time. *)
Ltac emits_step :=
  match goal with
  | |- emitsOnly _ (bind _ _) => apply emitsOnly_bind; [| intros ?]
  | |- emitsOnly _ (ret _) => apply emitsOnly_ret
  | |- emitsOnly _ (emit _) => apply emitsOnly_emit
  | |- emitsOnly _ (log.Fatalf _) => apply emitsOnly_Fatalf
  | |- emitsOnly _ (fmt.Printf _) => apply emitsOnly_emit
  | |- emitsOnly _ (fmt.Println _) => apply emitsOnly_emit
  | |- emitsOnly _ fmt.Scan => apply emitsOnly_Scan
  | |- emitsOnly _ (os.MkdirAll _ _) => apply emitsOnly_MkdirAll
  | |- emitsOnly _ (os.Open _) => apply emitsOnly_Open
  | |- emitsOnly _ (os.OpenFile _ _ _) => apply emitsOnly_OpenFile
  | |- emitsOnly _ (os.ReadAll _) => apply emitsOnly_ReadAll
  | |- emitsOnly _ (os.Write _ _) => apply emitsOnly_Write
  | |- emitsOnly _ (os.Close _) => apply emitsOnly_Close
  | |- emitsOnly _ (ioutil.ReadFile _) => apply emitsOnly_ReadFile
  | |- emitsOnly _ (NewImageAnnotatorClient _) => apply emitsOnly_NewClient
  | |- emitsOnly _ (match ?x with _ => _ end) => destruct x
  | |- emitsOnly _ (if ?x then _ else _) => destruct x
  end.

Ltac emits := repeat emits_step; try reflexivity; try assumption.

Lemma append_assoc (a b c : string) : (a ++ b) ++ c = a ++ (b ++ c).
Proof.
  induction a as [|x a IH]; [reflexivity|].
  change (String x ((a ++ b) ++ c) = String x (a ++ b ++ c)). rewrite IH. reflexivity.
Qed.

Lemma stdout_of_app (t1 t2 : list Event) :
  stdout_of (t1 ++ t2) = stdout_of t1 ++ stdout_of t2.
Proof.
  induction t1 as [|e t1 IH]; [reflexivity|].
  destruct e; simpl; rewrite ?IH, ?append_assoc; reflexivity.
Qed.

Lemma stdout_of_printed texts tail :
  stdout_of (map printed texts ++ tail)
  = unlines (map vision.Description texts) ++ stdout_of tail.
Proof.
  induction texts as [|t texts IH]; [reflexivity|].
  simpl. rewrite IH, !append_assoc. reflexivity.
Qed.

Lemma append_empty_r (s : string) : s ++ "" = s.
Proof.
  induction s as [|x s IH]; [reflexivity|].
  change (String x (s ++ "") = String x s). rewrite IH. reflexivity.
Qed.

(** ** [tokenCacheFile] *)

Lemma tokenCacheFile_run (w : World) :
  tokenCacheFile w
  = (Ret (Ok cacheFile), setFs w (withCacheDir w), [EvMkdirAll "./credentials" 0x1c0]).
Proof.
  unfold tokenCacheFile, bind, os.MkdirAll, withCacheDir.
  change (os.lineage (filepath.Clean "./credentials")) with ["credentials"].
  cbn [os.mkdirs]. unfold os.stat.
  change (os.isAnchor "credentials") with false.
  destruct (fs w !! "credentials") as [[|data]|]; [reflexivity | reflexivity |].
  destruct (readonly w); reflexivity.
Qed.

Lemma withCacheDir_cacheFile (w : World) :
  withCacheDir w !! cacheFile = fs w !! cacheFile.
Proof.
  unfold withCacheDir.
  destruct (fs w !! "credentials"); [reflexivity|].
  destruct (readonly w); [reflexivity|].
  apply lookup_insert_ne. discriminate.
Qed.

Lemma stat_cacheFile (m : gmap string Node) : os.stat m cacheFile = m !! cacheFile.
Proof. unfold os.stat. destruct (m !! cacheFile); reflexivity. Qed.

(** C8: in every run [tokenCacheFile] answers the same path,
    [credentials/cache.json], which is how [filepath.Join] spells
    [./credentials/cache.json] (the same file, from the working directory).
    Computing it does one thing: [os.MkdirAll("./credentials", 0700)].
    Where the directory is absent and the file system takes the change it is
    there afterwards; where it is there already nothing changes. *)
Theorem tokenCacheFile_fixed_path (w : World) :
  outcome (tokenCacheFile w) = Ret (Ok "credentials/cache.json") /\
  filepath.Clean "./credentials/cache.json" = "credentials/cache.json" /\
  events (tokenCacheFile w) = [EvMkdirAll "./credentials" 0x1c0] /\
  (fs w !! "credentials" = None -> readonly w = false ->
   fs (world (tokenCacheFile w)) = <["credentials" := NDir]> (fs w)) /\
  (fs w !! "credentials" = Some NDir -> world (tokenCacheFile w) = w).
Proof.
  rewrite tokenCacheFile_run. cbn [outcome world events fst snd].
  split; [reflexivity|]. split; [reflexivity|]. split; [reflexivity|].
  unfold setFs, withCacheDir. split.
  - intros -> ->. reflexivity.
  - intros ->. destruct w; reflexivity.
Qed.

Lemma tokenCacheFile_fixed_path_witness :
  outcome (tokenCacheFile Fixture.fresh) = Ret (Ok "credentials/cache.json") /\
  fs (world (tokenCacheFile Fixture.fresh)) !! "credentials" = Some NDir /\
  world (tokenCacheFile Fixture.cached) = Fixture.cached.
Proof.
  destruct (tokenCacheFile_fixed_path Fixture.fresh) as (Hp & _ & _ & Hnew & _).
  destruct (tokenCacheFile_fixed_path Fixture.cached) as (_ & _ & _ & _ & Hold).
  split; [exact Hp|]. split.
  - rewrite Hnew; [apply lookup_insert_eq | vm_compute; reflexivity | reflexivity].
  - apply Hold. vm_compute. reflexivity.
Defined.

(** The result of [os.MkdirAll] is dropped: on a read-only file system the
    directory cannot be made, and the path comes back with a nil error. *)
Example tokenCacheFile_readonly :
  let w := mkWorld Fixture.files true 0 "" in
  outcome (os.MkdirAll "./credentials" 0x1c0 w)
  = Ret (Some "mkdir credentials: read-only file system") /\
  tokenCacheFile w = (Ret (Ok "credentials/cache.json"), w, [EvMkdirAll "./credentials" 0x1c0]).
Proof. vm_compute. split; reflexivity. Qed.

(** ** [tokenFromFile], [getTokenFromWeb], [saveToken] *)

Section TokenRuns.

Context `{Collaborators}.

Lemma tokenFromFile_run file w :
  tokenFromFile file w =
    match os.stat (fs w) (filepath.Clean file) with
    | None =>
        (Ret (Err ("open " ++ file ++ ": no such file or directory")), w, [EvOpen file])
    | Some NDir =>
        (Ret (Err ("read " ++ file ++ ": is a directory")), w,
         [EvOpen file; EvRead file; EvClose file])
    | Some (NFile data) =>
        (Ret (match json_Decode data with
              | (t, None) => Ok t
              | (_, Some err) => Err err
              end), w, [EvOpen file; EvRead file; EvClose file])
    end.
Proof.
  unfold tokenFromFile, Decode, bind, os.Open, os.ReadAll, os.Close, ret.
  destruct (os.stat (fs w) (filepath.Clean file)) as [[|data]|] eqn:Est;
    cbn [f_key f_name]; rewrite ?Est; cbn [app]; try reflexivity.
  destruct (json_Decode data) as [t [err|]]; reflexivity.
Qed.

Lemma getTokenFromWeb_run config w :
  getTokenFromWeb config w =
    let w1 := mkWorld (fs w) (readonly w) (space w) (snd (fmt.scanString (stdin w))) in
    match fst (fmt.scanString (stdin w)) with
    | Err err =>
        (Exit 1, w1,
         [prompt config; EvStdin; EvFatal ("Unable to read authorization code " ++ err)])
    | Ok code =>
        match oauth2_Exchange config code with
        | Err err =>
            (Exit 1, w1,
             [prompt config; EvStdin; EvExchange config code;
              EvFatal ("Unable to retrieve token from web " ++ err)])
        | Ok tok => (Ret tok, w1, [prompt config; EvStdin; EvExchange config code])
        end
    end.
Proof.
  unfold getTokenFromWeb, Exchange, bind, fmt.Printf, fmt.Scan, emit, ret, log.Fatalf, prompt.
  destruct (fst (fmt.scanString (stdin w))) as [code|err]; cbn [app]; [| reflexivity].
  destruct (oauth2_Exchange config code) as [tok|err]; reflexivity.
Qed.

Lemma OpenFile_events name flag perm w :
  events (os.OpenFile name flag perm w) = [EvOpenFile name flag perm].
Proof.
  unfold os.OpenFile.
  repeat match goal with
         | |- context [match ?x with _ => _ end] => destruct x
         end; reflexivity.
Qed.

Lemma OpenFile_outcome name flag perm w :
  (exists err, outcome (os.OpenFile name flag perm w) = Ret (Err err)
               /\ world (os.OpenFile name flag perm w) = w)
  \/ outcome (os.OpenFile name flag perm w) = Ret (Ok (mkFile name (filepath.Clean name))).
Proof.
  unfold os.OpenFile.
  repeat match goal with
         | |- context [match ?x with _ => _ end] => destruct x
         end; cbn [outcome world fst snd]; eauto.
Qed.

Lemma Write_returns f data w :
  exists res, outcome (os.Write f data w) = Ret res
              /\ events (os.Write f data w) = [EvWrite (f_name f) data].
Proof.
  unfold os.Write.
  repeat match goal with
         | |- context [match ?x with _ => _ end] => destruct x
         end; cbn [outcome events fst snd]; eauto.
Qed.

(** [saveToken] by cases on the opening of the file; what the write
    answers is not looked at. *)
Lemma saveToken_run file token w :
  let saving := EvStdout ("Saving credential file to: " ++ file ++ nl) in
  let opened := os.OpenFile file saveFlags 0x180 w in
  saveToken file token w =
    match outcome opened with
    | Ret (Err err) =>
        (Exit 1, world opened,
         [saving; EvOpenFile file saveFlags 0x180;
          EvFatal ("Unable to cache oauth token: " ++ err)])
    | Ret (Ok f) =>
        (Ret tt, world (os.Write f (json_Marshal token ++ nl) (world opened)),
         [saving; EvOpenFile file saveFlags 0x180;
          EvWrite (f_name f) (json_Marshal token ++ nl); EvClose (f_name f)])
    | Exit c => (Exit c, world opened, [saving; EvOpenFile file saveFlags 0x180])
    end.
Proof.
  cbv zeta. unfold saveToken, Encode.
  unfold bind at 1. cbn [fmt.Printf emit].
  unfold bind at 1. fold saveFlags.
  pose proof (OpenFile_events file saveFlags 0x180 w) as Ev.
  destruct (os.OpenFile file saveFlags 384 w) as [[[[f|err]|c] w1] t1];
    cbn [events snd] in Ev; subst t1; cbn [outcome world fst snd log.Fatalf app];
    try reflexivity.
  unfold bind at 1.
  destruct (Write_returns f (json_Marshal token ++ nl) w1) as (res & Ho & Ew).
  destruct (os.Write f (json_Marshal token ++ nl) w1) as [[o w2] t2].
  cbn [outcome events world fst snd] in *. subst o t2.
  reflexivity.
Qed.

End TokenRuns.

Section SaveToken.

Context `{Collaborators}.

Lemma saveToken_saves (tok : oauth2.Token) (w : World) :
  readonly w = false ->
  fs w !! "credentials" = Some NDir ->
  fs w !! cacheFile <> Some NDir ->
  (String.length (json_Marshal tok ++ nl) <= space w)%nat ->
  outcome (saveToken cacheFile tok w) = Ret tt /\
  events (saveToken cacheFile tok w)
  = [EvStdout ("Saving credential file to: " ++ cacheFile ++ nl);
     EvOpenFile cacheFile saveFlags 0x180;
     EvWrite cacheFile (json_Marshal tok ++ nl); EvClose cacheFile] /\
  fs (world (saveToken cacheFile tok w)) !! cacheFile
  = Some (NFile (json_Marshal tok ++ nl)) /\
  stdin (world (saveToken cacheFile tok w)) = stdin w.
Proof.
  intros Hro Hdir Hnd Hsp. rewrite saveToken_run. cbv zeta.
  unfold os.OpenFile.
  change (filepath.Clean cacheFile) with cacheFile.
  change (filepath.Dir cacheFile) with "credentials".
  change (os.forWriting saveFlags) with true.
  change (os.hasFlag saveFlags os.O_TRUNC) with true.
  change (os.hasFlag saveFlags os.O_CREATE) with true.
  rewrite stat_cacheFile, Hro. cbn [andb].
  destruct (fs w !! cacheFile) as [[|old]|] eqn:Ef; [congruence | |].
  - cbn [outcome world events fst snd]. unfold os.Write. cbn [fs f_key f_name space].
    rewrite (lookup_insert_eq (fs w) cacheFile).
    assert (Hle : (String.length (json_Marshal tok ++ nl) <=? space w + String.length old)%nat
                  = true) by (apply Nat.leb_le; lia).
    rewrite Hle. cbn [outcome world events fst snd fs stdin].
    rewrite (lookup_insert_eq (<[cacheFile := NFile ""]> (fs w)) cacheFile).
    repeat split; reflexivity.
  - assert (Hst : os.stat (fs w) "credentials" = Some NDir)
      by (unfold os.stat; rewrite Hdir; reflexivity).
    rewrite Hst.
    cbn [outcome world events fst snd]. unfold os.Write. cbn [fs f_key f_name space setFs].
    rewrite (lookup_insert_eq (fs w) cacheFile).
    assert (Hle : (String.length (json_Marshal tok ++ nl) <=? space w)%nat = true)
      by (apply Nat.leb_le; lia).
    rewrite Hle. cbn [outcome world events fst snd fs stdin].
    rewrite (lookup_insert_eq (<[cacheFile := NFile ""]> (fs w)) cacheFile).
    repeat split; reflexivity.
Qed.

Lemma withCacheDir_dir (w : World) :
  readonly w = false ->
  (forall data, fs w !! "credentials" <> Some (NFile data)) ->
  withCacheDir w !! "credentials" = Some NDir.
Proof.
  intros Hro Hnf. unfold withCacheDir.
  destruct (fs w !! "credentials") as [[|data]|] eqn:E.
  - exact E.
  - exfalso. exact (Hnf data eq_refl).
  - rewrite Hro. apply lookup_insert_eq.
Qed.

End SaveToken.

(** Once the file is open [saveToken] returns, whatever the encoder's write
    answered. *)
Lemma saveToken_returns_when_opened `{Collaborators} file token w f :
  outcome (os.OpenFile file saveFlags 0x180 w) = Ret (Ok f) ->
  outcome (saveToken file token w) = Ret tt /\
  Forall (fun e => isFatal e = false) (events (saveToken file token w)).
Proof.
  intros Ho. rewrite saveToken_run. cbv zeta. rewrite Ho.
  split; [reflexivity | repeat constructor].
Qed.

(** A file that cannot be opened is fatal: here on a read-only file system. *)
Example saveToken_readonly :
  saveToken (H := Fixture.libraries) "credentials/cache.json" Fixture.token
    (mkWorld (fs Fixture.full) true 4096 "")
  = (Exit 1, mkWorld (fs Fixture.full) true 4096 "",
     [EvStdout ("Saving credential file to: credentials/cache.json" ++ nl);
      EvOpenFile "credentials/cache.json" saveFlags 0x180;
      EvFatal ("Unable to cache oauth token: "
               ++ "open credentials/cache.json: read-only file system")]).
Proof. vm_compute. reflexivity. Qed.

(** C3: a write that fails is not reported.  On a device with no room left
    the cache file opens (empty), the encoder's write fails with
    [no space left on device], and [saveToken] returns as if the token were
    saved: no [log.Fatalf], the file left empty; [main] goes on to the
    detection and ends normally. *)
Theorem saveToken_drops_write_error :
  let r := saveToken (H := Fixture.libraries) "credentials/cache.json" Fixture.token
             Fixture.full in
  let opened := os.OpenFile "credentials/cache.json" saveFlags 0x180 Fixture.full in
  outcome opened = Ret (Ok (mkFile "credentials/cache.json" "credentials/cache.json")) /\
  outcome (Encode (H := Fixture.libraries)
             (mkFile "credentials/cache.json" "credentials/cache.json")
             Fixture.token (world opened))
  = Ret (Some "write credentials/cache.json: no space left on device") /\
  outcome r = Ret tt /\
  Forall (fun e => isFatal e = false) (events r) /\
  fs (world r) !! "credentials/cache.json" = Some (NFile "") /\
  outcome (main (H := Fixture.libraries) (mkFlags "" "client.json" "scan.png") Fixture.full)
  = Ret tt.
Proof.
  cbv zeta.
  split; [vm_compute; reflexivity|].
  split; [vm_compute; reflexivity|].
  split; [vm_compute; reflexivity|].
  split; [vm_compute; repeat constructor|].
  split; vm_compute; reflexivity.
Qed.

(** ** [getToken] *)

Section GetToken.

Context `{Collaborators}.

(** [getToken] after the cache directory step: by cases on what reading
    the cache gave. *)
Lemma getToken_run config w :
  let w0 := setFs w (withCacheDir w) in
  let mk := EvMkdirAll "./credentials" 0x1c0 in
  getToken config w =
    match tokenFromFile cacheFile w0 with
    | (Ret (Ok tok), w1, t1) => (Ret (Ok tok), w1, mk :: t1)
    | (Ret (Err _), w1, t1) =>
        match getTokenFromWeb config w1 with
        | (Ret tok, w2, t2) =>
            match saveToken cacheFile tok w2 with
            | (Ret _, w3, t3) => (Ret (Ok tok), w3, mk :: (t1 ++ t2 ++ t3)%list)
            | (Exit c, w3, t3) => (Exit c, w3, mk :: (t1 ++ t2 ++ t3)%list)
            end
        | (Exit c, w2, t2) => (Exit c, w2, mk :: (t1 ++ t2)%list)
        end
    | (Exit c, w1, t1) => (Exit c, w1, mk :: t1)
    end.
Proof.
  cbv zeta. unfold getToken. unfold bind at 1. rewrite tokenCacheFile_run.
  unfold bind at 1.
  destruct (tokenFromFile cacheFile _) as [[[[tok|err]|c] w1] t1]; cbn [ret app];
    rewrite ?app_nil_r; try reflexivity.
  unfold bind at 1.
  destruct (getTokenFromWeb config w1) as [[[tok|c] w2] t2]; cbn [app]; [| reflexivity].
  unfold bind at 1.
  destruct (saveToken cacheFile tok w2) as [[[[]|c] w3] t3]; cbn [ret app];
    rewrite ?app_nil_r; reflexivity.
Qed.

Lemma getTokenFromWeb_outcome config w :
  outcome (getTokenFromWeb config w) = Exit 1
  \/ exists tok, outcome (getTokenFromWeb config w) = Ret tok.
Proof.
  rewrite getTokenFromWeb_run. cbv zeta.
  destruct (fst (fmt.scanString (stdin w))) as [code|err]; [| left; reflexivity].
  destruct (oauth2_Exchange config code) as [tok|err]; [right; eexists | left]; reflexivity.
Qed.

Lemma saveToken_outcome file token w :
  outcome (saveToken file token w) = Exit 1 \/ outcome (saveToken file token w) = Ret tt.
Proof.
  rewrite saveToken_run. cbv zeta.
  destruct (OpenFile_outcome file saveFlags 0x180 w) as [(err & -> & _)| ->];
    [left | right]; reflexivity.
Qed.

Lemma tokenFromFile_outcome file w :
  exists r, outcome (tokenFromFile file w) = Ret r.
Proof.
  rewrite tokenFromFile_run.
  destruct (os.stat _ _) as [[|data]|]; eexists; reflexivity.
Qed.

Lemma getToken_outcome config w :
  outcome (getToken config w) = Exit 1
  \/ exists tok, outcome (getToken config w) = Ret (Ok tok).
Proof.
  rewrite getToken_run. cbv zeta.
  destruct (tokenFromFile_outcome cacheFile (setFs w (withCacheDir w))) as [r Hr].
  destruct (tokenFromFile cacheFile _) as [[o w1] t1]. cbn [outcome fst] in Hr. subst o.
  destruct r as [tok|err]; [right; eexists; reflexivity|].
  destruct (getTokenFromWeb_outcome config w1) as [Hw|[tok Hw]];
    destruct (getTokenFromWeb config w1) as [[o w2] t2]; cbn [outcome fst] in Hw; subst o;
    [left; reflexivity|].
  destruct (saveToken_outcome cacheFile tok w2) as [Hs|Hs];
    destruct (saveToken cacheFile tok w2) as [[o w3] t3]; cbn [outcome fst] in Hs; subst o;
    [left | right; eexists]; reflexivity.
Qed.

End GetToken.

(** C10: [getToken] never returns an error.  [tokenCacheFile] answers its
    path with a nil error in every world, also where the directory cannot be
    made (the result of [os.MkdirAll] is dropped); [getTokenFromWeb] ends the
    process or returns a token; so [getToken] ends the process or returns a
    token with a nil error.  The two error branches are dead: whatever is
    put in the place of the branch taken on an error of [tokenCacheFile]
    (inside [getToken]) or of [getToken] (inside [visionClient]), the run is
    the same. *)
Theorem getToken_never_fails `{Collaborators} (config : oauth2.Config) (w : World) :
  outcome (tokenCacheFile w) = Ret (Ok "credentials/cache.json") /\
  (outcome (getTokenFromWeb config w) = Exit 1
   \/ exists tok, outcome (getTokenFromWeb config w) = Ret tok) /\
  (outcome (getToken config w) = Exit 1
   \/ exists tok, outcome (getToken config w) = Ret (Ok tok)) /\
  (forall (B : Type) (onErr onErr' : error -> M B) (onOk : string -> M B),
      bind tokenCacheFile
        (fun r => match r with Err err => onErr err | Ok path => onOk path end) w
      = bind tokenCacheFile
          (fun r => match r with Err err => onErr' err | Ok path => onOk path end) w) /\
  (forall (B : Type) (onErr onErr' : error -> M B) (onOk : oauth2.Token -> M B),
      bind (getToken config)
        (fun r => match r with Err err => onErr err | Ok tok => onOk tok end) w
      = bind (getToken config)
          (fun r => match r with Err err => onErr' err | Ok tok => onOk tok end) w).
Proof.
  split; [rewrite tokenCacheFile_run; reflexivity|].
  split; [apply getTokenFromWeb_outcome|].
  split; [apply getToken_outcome|].
  split.
  - intros B onErr onErr' onOk. unfold bind. rewrite tokenCacheFile_run. reflexivity.
  - intros B onErr onErr' onOk. unfold bind.
    destruct (getToken_outcome config w) as [Ho|[tok Ho]];
      destruct (getToken config w) as [[o w1] t1]; cbn [outcome fst] in Ho; subst o;
      reflexivity.
Qed.

(** C5: where the cache file is there and decodes into a token, [getToken]
    returns that token after asking for the directory, opening the file,
    reading it and closing it, and nothing else: nothing is printed (no
    authorization URL), standard input is not read, and the cache file is
    neither opened for writing nor changed. *)
Theorem getToken_cache_hit `{Collaborators} (config : oauth2.Config) (w : World)
    (data : string) (tok : oauth2.Token) :
  fs w !! "credentials/cache.json" = Some (NFile data) ->
  json_Decode data = (tok, None) ->
  outcome (getToken config w) = Ret (Ok tok) /\
  events (getToken config w)
  = [EvMkdirAll "./credentials" 0x1c0; EvOpen "credentials/cache.json";
     EvRead "credentials/cache.json"; EvClose "credentials/cache.json"] /\
  Forall (fun e => interactive e = false) (events (getToken config w)) /\
  stdout_of (events (getToken config w)) = "" /\
  stdin (world (getToken config w)) = stdin w /\
  fs (world (getToken config w)) !! "credentials/cache.json" = Some (NFile data).
Proof.
  intros Hfile Hdec.
  assert (E : getToken config w
              = (Ret (Ok tok), setFs w (withCacheDir w),
                 [EvMkdirAll "./credentials" 0x1c0; EvOpen cacheFile;
                  EvRead cacheFile; EvClose cacheFile])).
  { rewrite getToken_run. cbv zeta. rewrite tokenFromFile_run.
    change (filepath.Clean cacheFile) with cacheFile.
    cbn [fs setFs]. rewrite stat_cacheFile, withCacheDir_cacheFile.
    fold cacheFile in Hfile. rewrite Hfile, Hdec. reflexivity. }
  rewrite E. cbn [outcome events world fst snd setFs stdin fs].
  split; [reflexivity|]. split; [reflexivity|].
  split; [repeat constructor|]. split; [reflexivity|]. split; [reflexivity|].
  rewrite withCacheDir_cacheFile. exact Hfile.
Qed.

Lemma getToken_cache_hit_witness :
  outcome (getToken (H := Fixture.libraries) Fixture.config Fixture.cached)
  = Ret (Ok Fixture.token) /\
  stdout_of (events (getToken (H := Fixture.libraries) Fixture.config Fixture.cached)) = "" /\
  stdin (world (getToken (H := Fixture.libraries) Fixture.config Fixture.cached)) = "".
Proof.
  destruct (getToken_cache_hit (H := Fixture.libraries) Fixture.config Fixture.cached
              (Fixture.tokenText ++ nl) Fixture.token)
    as (Ho & _ & _ & Hout & Hin & _).
  - vm_compute. reflexivity.
  - vm_compute. reflexivity.
  - split; [exact Ho|]. split; [exact Hout | exact Hin].
Defined.

Section CacheMiss.

Context `{Collaborators}.

Lemma tokenFromFile_miss (w : World) :
  cacheMiss w ->
  exists err probe,
    tokenFromFile cacheFile (setFs w (withCacheDir w))
    = (Ret (Err err), setFs w (withCacheDir w), probe)
    /\ Forall (fun e => interactive e = false) probe.
Proof.
  intros Hmiss. rewrite tokenFromFile_run.
  change (filepath.Clean cacheFile) with cacheFile.
  cbn [fs setFs]. rewrite stat_cacheFile, withCacheDir_cacheFile.
  destruct Hmiss as [-> | (data & err & -> & Hdec)].
  - eexists _, _. split; [reflexivity | repeat constructor].
  - destruct (json_Decode data) as [t [e|]]; [| discriminate].
    eexists _, _. split; [reflexivity | repeat constructor].
Qed.

End CacheMiss.



(** ** [visionClient] *)

Section TokenAlphabet.

Context `{Collaborators}.

Local Abbreviation tok := (fun e : Event => tokenEvent e = true).

Lemma tokenCacheFile_emits : emitsOnly tok tokenCacheFile.
Proof. unfold tokenCacheFile. emits. Qed.

Lemma tokenFromFile_emits file : emitsOnly tok (tokenFromFile file).
Proof. unfold tokenFromFile, Decode. emits. Qed.

Lemma getTokenFromWeb_emits config : emitsOnly tok (getTokenFromWeb config).
Proof. unfold getTokenFromWeb, Exchange. emits. Qed.

Lemma saveToken_emits file token : emitsOnly tok (saveToken file token).
Proof. unfold saveToken, Encode. emits. Qed.

Lemma getToken_emits config : emitsOnly tok (getToken config).
Proof.
  unfold getToken.
  apply emitsOnly_bind; [apply tokenCacheFile_emits | intros [cacheFile|err]].
  - apply emitsOnly_bind; [apply tokenFromFile_emits | intros [t|err]].
    + emits.
    + apply emitsOnly_bind; [apply getTokenFromWeb_emits | intros t].
      apply emitsOnly_bind; [apply saveToken_emits | intros _]. emits.
  - emits.
Qed.

Lemma visionClient_emits flags :
  emitsOnly (fun e => isDetect e = false) (visionClient flags).
Proof.
  unfold visionClient.
  destruct (negb _); [emits |].
  apply emitsOnly_bind; [emits | intros [b|err]]; [| emits].
  destruct (google_ConfigFromJSON _ _) as [config|err]; [| emits].
  apply emitsOnly_bind; [| intros [t|err]; emits].
  intros w. eapply Forall_impl; [apply getToken_emits |].
  intros [] He; simpl in *; congruence || reflexivity.
Qed.

End TokenAlphabet.

Lemma visionClient_clientID `{Collaborators} (flags : Flags) (w : World) :
  flagServiceAccount flags = "" ->
  visionClient flags w =
    let name := flagClientID flags in
    match os.stat (fs w) (filepath.Clean name) with
    | Some (NFile b) =>
        match google_ConfigFromJSON b vision_DefaultAuthScopes with
        | Ok config =>
            match getToken config w with
            | (Ret (Ok tok), w1, t1) =>
                let opt := vision.WithTokenSource (oauth2.mkTokenSource config tok) in
                (Ret (vision_NewClient opt (fs w1)), w1,
                 EvReadFile name :: (t1 ++ [EvNewClient opt])%list)
            | (Ret (Err err), w1, t1) => (Ret (Err err), w1, EvReadFile name :: t1)
            | (Exit c, w1, t1) => (Exit c, w1, EvReadFile name :: t1)
            end
        | Err err =>
            (Ret (Err ("unable to parse client id file to config: " ++ err)), w,
             [EvReadFile name])
        end
    | Some NDir =>
        (Ret (Err ("unable to read client id file: read " ++ name ++ ": is a directory")),
         w, [EvReadFile name])
    | None =>
        (Ret (Err ("unable to read client id file: open " ++ name
                   ++ ": no such file or directory")), w, [EvReadFile name])
    end.
Proof.
  intros Hsa. unfold visionClient. rewrite Hsa. cbn [GoString.isEmpty negb].
  cbv zeta. unfold bind at 1. unfold ioutil.ReadFile at 1. unfold scopeURLs.
  destruct (os.stat (fs w) (filepath.Clean (flagClientID flags))) as [[|b]|];
    try reflexivity.
  destruct (google_ConfigFromJSON b vision_DefaultAuthScopes) as [config|err];
    try reflexivity.
  unfold bind at 1.
  destruct (getToken config w) as [[[[tok|err]|c] w1] t1]; cbn [ret app];
    rewrite ?app_nil_r; reflexivity.
Qed.



(** ** [main] *)

Section MainFlags.

Context `{Collaborators}.

Lemma forRange_emit {A} (f : A -> Event) xs w :
  forRange xs (fun x w' => (Ret tt, w', [f x])) w = (Ret tt, w, map f xs).
Proof.
  induction xs as [|x xs IH]; [reflexivity|].
  simpl. unfold bind. simpl. rewrite IH. reflexivity.
Qed.

Lemma main_accepted flags w :
  ((flagServiceAccount flags <> "" /\ flagClientID flags = "") \/
   (flagServiceAccount flags = "" /\ flagClientID flags <> "")) ->
  flagInput flags <> "" ->
  main flags w =
    match visionClient flags w with
    | (Exit c, w1, t1) => (Exit c, w1, t1)
    | (Ret (Err err), w1, t1) =>
        (Exit 1, w1, (t1 ++ [EvFatal ("Failed to create client: " ++ err)])%list)
    | (Ret (Ok cl), w1, t1) =>
        (fst (afterClient flags cl w1), w1, (t1 ++ snd (afterClient flags cl w1))%list)
    end.
Proof.
  intros Hcred Hin. unfold main.
  apply isEmpty_false in Hin.
  assert (Hgate :
    (if GoString.isEmpty (flagServiceAccount flags) && GoString.isEmpty (flagClientID flags)
     then log.Fatalf "either -service_account or -client_id must be specified"
     else if negb (GoString.isEmpty (flagServiceAccount flags))
             && negb (GoString.isEmpty (flagClientID flags))
     then log.Fatalf "-service_account and -client_id are mutually exclusive"
     else ret tt) = ret tt).
  { destruct Hcred as [[Hs Hc]|[Hs Hc]].
    - apply isEmpty_false in Hs. apply isEmpty_true in Hc.
      rewrite Hs, Hc. reflexivity.
    - apply isEmpty_true in Hs. apply isEmpty_false in Hc.
      rewrite Hs, Hc. reflexivity. }
  rewrite Hgate, Hin. clear Hgate.
  unfold afterClient, bind, NewImageFromReader, DetectTexts, os.Open, os.ReadAll,
    fmt.Println, emit, ret, log.Fatalf, os.Close, bind.
  destruct (visionClient flags w) as [[[[cl|err]|c] w1] t1]; try reflexivity.
  destruct (os.stat (fs w1) (filepath.Clean (flagInput flags))) as [[|data]|] eqn:Est;
    cbn [f_key f_name]; rewrite ?Est; cbn [app fst snd]; rewrite ?app_nil_r;
    try reflexivity.
  destruct (vision_Annotate cl _ None (-1)) as [texts|err]; cbn [app fst snd];
    try reflexivity.
  rewrite forRange_emit. reflexivity.
Qed.

End MainFlags.

Section MainShape.

Context `{Collaborators}.

Local Abbreviation quiet := (fun e : Event => isDetect e = false).

Lemma main_rejected flags w :
  ~ ((flagServiceAccount flags <> "" /\ flagClientID flags = "") \/
     (flagServiceAccount flags = "" /\ flagClientID flags <> "")) \/
  flagInput flags = "" ->
  exists msg, main flags w = (Exit 1, w, [EvFatal msg]).
Proof.
  intros Hbad. unfold main.
  destruct (flagServiceAccount flags) as [|a sa], (flagClientID flags) as [|b cid];
    cbn [GoString.isEmpty andb negb].
  - eexists. reflexivity.
  - destruct Hbad as [Hbad|Hin]; [exfalso; apply Hbad; right; split; congruence|].
    rewrite Hin. eexists. reflexivity.
  - destruct Hbad as [Hbad|Hin]; [exfalso; apply Hbad; left; split; congruence|].
    rewrite Hin. eexists. reflexivity.
  - eexists. reflexivity.
Qed.

Lemma flags_dec flags :
  (((flagServiceAccount flags <> "" /\ flagClientID flags = "") \/
    (flagServiceAccount flags = "" /\ flagClientID flags <> "")) /\
   flagInput flags <> "") \/
  (~ ((flagServiceAccount flags <> "" /\ flagClientID flags = "") \/
      (flagServiceAccount flags = "" /\ flagClientID flags <> "")) \/
   flagInput flags = "").
Proof.
  destruct (flagServiceAccount flags) as [|a sa], (flagClientID flags) as [|b cid],
    (flagInput flags) as [|c input];
    try (right; right; reflexivity);
    try (left; split; [| congruence]; (left + right); split; congruence);
    right; left; intros [[? ?]|[? ?]]; congruence.
Qed.

(** Every run of [main] either never reaches the detection, or reaches it
    once, with the arguments of the source, and ends as its answer says. *)
Lemma main_shape flags w :
  (Forall quiet (events (main flags w)) /\ exists c, outcome (main flags w) = Exit c)
  \/ exists pre cl img,
      Forall quiet pre /\
      ((exists err,
           vision_Annotate cl img None (-1) = Err err /\
           outcome (main flags w) = Exit 1 /\
           events (main flags w)
           = (pre ++ [EvDetectTexts cl img None (-1);
                      EvFatal ("Error detecting text: " ++ err)])%list)
       \/ (exists texts,
              vision_Annotate cl img None (-1) = Ok texts /\
              outcome (main flags w) = Ret tt /\
              events (main flags w)
              = (pre ++ EvDetectTexts cl img None (-1)
                     :: EvStdout ("Text:" ++ nl)
                     :: map printed texts ++ [EvClose (flagInput flags)])%list)).
Proof.
  destruct (flags_dec flags) as [[Hcred Hin]|Hbad].
  2:{ left. destruct (main_rejected flags w Hbad) as [msg ->].
      split; [repeat constructor | eexists; reflexivity]. }
  rewrite (main_accepted flags w Hcred Hin).
  pose proof (visionClient_emits flags w) as Hq.
  destruct (visionClient flags w) as [[[[cl|err]|c] w1] t1]; cbn [events snd] in Hq.
  - unfold afterClient.
    destruct (os.stat (fs w1) (filepath.Clean (flagInput flags))) as [[|data]|].
    + left. split; [| eexists; reflexivity]. cbn [events fst snd].
      apply Forall_app; split; [assumption | repeat constructor].
    + destruct (vision_Annotate cl {| vision.Content := data |} None (-1))
        as [texts|err] eqn:Ea.
      * right. exists (t1 ++ [EvOpen (flagInput flags); EvRead (flagInput flags)])%list,
          cl, {| vision.Content := data |}.
        split; [apply Forall_app; split; [assumption | repeat constructor] |].
        right. exists texts. rewrite Ea. split; [reflexivity|]. split; [reflexivity|].
        cbn [events fst snd]. rewrite <- app_assoc. reflexivity.
      * right. exists (t1 ++ [EvOpen (flagInput flags); EvRead (flagInput flags)])%list,
          cl, {| vision.Content := data |}.
        split; [apply Forall_app; split; [assumption | repeat constructor] |].
        left. exists err. rewrite Ea. split; [reflexivity|]. split; [reflexivity|].
        cbn [events fst snd]. rewrite <- app_assoc. reflexivity.
    + left. split; [| eexists; reflexivity]. cbn [events fst snd].
      apply Forall_app; split; [assumption | repeat constructor].
  - left. split; [| eexists; reflexivity]. cbn [events snd].
    apply Forall_app; split; [assumption | repeat constructor].
  - left. split; [assumption | eexists; reflexivity].
Qed.

Lemma quiet_map_printed texts : Forall quiet (map printed texts).
Proof. induction texts; constructor; auto. Qed.

(** A trace with one detection splits around it in one way only. *)
Lemma split_at_detect (l1 l2 pre post : list Event) d d' :
  Forall quiet l1 -> Forall quiet l2 -> isDetect d' = true ->
  (l1 ++ d :: l2 = pre ++ d' :: post)%list ->
  pre = l1 /\ d' = d /\ post = l2.
Proof.
  intros H1 H2 Hd. revert pre.
  induction l1 as [|a l1 IH]; intros [|x pre] E; simpl in E.
  - injection E as -> ->. auto.
  - injection E as -> ->.
    apply Forall_app in H2 as [_ H2]. inversion H2; subst. congruence.
  - injection E as -> _. inversion H1; subst. congruence.
  - injection E as -> E. inversion H1; subst.
    destruct (IH H5 pre E) as (-> & -> & ->). auto.
Qed.

Lemma quiet_no_detect (l pre post : list Event) d :
  Forall quiet l -> isDetect d = true -> l <> (pre ++ d :: post)%list.
Proof.
  intros Hl Hd ->. apply Forall_app in Hl as [_ Hl]. inversion Hl; subst. congruence.
Qed.

End MainShape.

(** C1: with both credential flags set, or with neither, [main] ends in
    [log.Fatalf] on one of the two configuration messages: exit status 1,
    the world as it was, and the message the only thing that happened, so no
    file was touched and no service called ([visionClient], the opening of
    the image and the detection are not reached). *)
Theorem main_rejects_credential_flags `{Collaborators} (flags : Flags) (w : World) :
  (flagServiceAccount flags <> "" /\ flagClientID flags <> "") \/
  (flagServiceAccount flags = "" /\ flagClientID flags = "") ->
  exists msg,
    main flags w = (Exit 1, w, [EvFatal msg]) /\
    (msg = "either -service_account or -client_id must be specified" \/
     msg = "-service_account and -client_id are mutually exclusive") /\
    Forall (fun e => isFileIO e = false /\ isNetwork e = false) (events (main flags w)).
Proof.
  intros [[Hs Hc]|[Hs Hc]].
  - exists "-service_account and -client_id are mutually exclusive".
    apply isEmpty_false in Hs, Hc.
    assert (E : main flags w
                = (Exit 1, w, [EvFatal "-service_account and -client_id are mutually exclusive"])).
    { unfold main. rewrite Hs, Hc. reflexivity. }
    rewrite E. split; [reflexivity|]. split; [auto | repeat constructor].
  - exists "either -service_account or -client_id must be specified".
    apply isEmpty_true in Hs, Hc.
    assert (E : main flags w
                = (Exit 1, w, [EvFatal "either -service_account or -client_id must be specified"])).
    { unfold main. rewrite Hs, Hc. reflexivity. }
    rewrite E. split; [reflexivity|]. split; [auto | repeat constructor].
Qed.

Lemma main_rejects_credential_flags_witness :
  exists msg,
    main (H := Fixture.libraries) (mkFlags "sa.json" "client.json" "scan.png") Fixture.fresh
    = (Exit 1, Fixture.fresh, [EvFatal msg]) /\
    (msg = "either -service_account or -client_id must be specified" \/
     msg = "-service_account and -client_id are mutually exclusive") /\
    Forall (fun e => isFileIO e = false /\ isNetwork e = false)
      (events (main (H := Fixture.libraries)
                 (mkFlags "sa.json" "client.json" "scan.png") Fixture.fresh)).
Proof.
  apply (main_rejects_credential_flags (mkFlags "sa.json" "client.json" "scan.png")).
  left. simpl. split; discriminate.
Defined.

(** C2: with exactly one credential flag set and an empty [-input], [main]
    ends in [log.Fatalf] on the message about [-input]: exit status 1, the
    world as it was, and nothing else happened; [visionClient] is not
    reached, so no credential file is read and the token cache is left
    alone. *)
Theorem main_rejects_empty_input `{Collaborators} (flags : Flags) (w : World) :
  (flagServiceAccount flags <> "" /\ flagClientID flags = "") \/
  (flagServiceAccount flags = "" /\ flagClientID flags <> "") ->
  flagInput flags = "" ->
  main flags w = (Exit 1, w, [EvFatal "-input needs to be specified"]) /\
  Forall (fun e => touchesCredentials e = false) (events (main flags w)).
Proof.
  intros Hcred Hin.
  assert (E : main flags w = (Exit 1, w, [EvFatal "-input needs to be specified"])).
  { unfold main. rewrite Hin.
    destruct Hcred as [[Hs Hc]|[Hs Hc]].
    - apply isEmpty_false in Hs. rewrite Hs, Hc. reflexivity.
    - apply isEmpty_false in Hc. rewrite Hs, Hc. reflexivity. }
  rewrite E. split; [reflexivity | repeat constructor].
Qed.

Lemma main_rejects_empty_input_witness :
  main (H := Fixture.libraries) (mkFlags "" "client.json" "") Fixture.fresh
  = (Exit 1, Fixture.fresh, [EvFatal "-input needs to be specified"]) /\
  Forall (fun e => touchesCredentials e = false)
    (events (main (H := Fixture.libraries) (mkFlags "" "client.json" "") Fixture.fresh)).
Proof.
  apply (main_rejects_empty_input (mkFlags "" "client.json" "")).
  - right. simpl. split; [reflexivity | discriminate].
  - reflexivity.
Defined.

(** C4: in every run of [main], what follows a detection that answered with
    a list of annotations is exactly: the line [Text:], then one [Println]
    of each annotation's [Description], in the order of the list and byte
    for byte, then the closing of the image file; the run ends normally.
    Standard output gains these lines and nothing else. *)
Theorem main_prints_descriptions `{Collaborators} (flags : Flags) (w : World)
    (pre post : list Event) cl img ictx n (texts : list vision.EntityAnnotation) :
  events (main flags w) = (pre ++ EvDetectTexts cl img ictx n :: post)%list ->
  vision_Annotate cl img ictx n = Ok texts ->
  outcome (main flags w) = Ret tt /\
  post = (EvStdout ("Text:" ++ nl) :: map printed texts ++ [EvClose (flagInput flags)])%list /\
  stdout_of post = unlines ("Text:" :: map vision.Description texts) /\
  stdout_of (events (main flags w))
  = stdout_of pre ++ unlines ("Text:" :: map vision.Description texts).
Proof.
  intros Ev Ea.
  assert (Hout : forall ts,
    stdout_of (EvStdout ("Text:" ++ nl) :: map printed ts ++ [EvClose (flagInput flags)])
    = unlines ("Text:" :: map vision.Description ts)).
  { intros ts. cbn [stdout_of unlines]. rewrite stdout_of_printed. cbn [stdout_of].
    rewrite append_empty_r, append_assoc. reflexivity. }
  destruct (main_shape flags w) as [[Hq _]|(pre0 & cl0 & img0 & Hpre & Hrun)].
  - exfalso. eapply quiet_no_detect; [exact Hq | | exact Ev]. reflexivity.
  - destruct Hrun as [(err & Ea0 & _ & Ev0)|(texts0 & Ea0 & Ho & Ev0)].
    + rewrite Ev0 in Ev.
      apply split_at_detect in Ev as (_ & Ed & _);
        [| assumption | repeat constructor | reflexivity].
      injection Ed as -> -> -> ->. congruence.
    + rewrite Ev0 in Ev.
      apply split_at_detect in Ev as (-> & Ed & ->); [| assumption | | reflexivity].
      * injection Ed as -> -> -> ->.
        assert (texts0 = texts) as -> by congruence.
        split; [assumption|]. split; [reflexivity|]. split; [apply Hout|].
        rewrite Ev0.
        change (pre0 ++ EvDetectTexts cl0 img0 None (-1)
                  :: EvStdout ("Text:" ++ nl) :: map printed texts ++ [EvClose (flagInput flags)])%list
          with (pre0 ++ [EvDetectTexts cl0 img0 None (-1)]
                  ++ EvStdout ("Text:" ++ nl) :: map printed texts ++ [EvClose (flagInput flags)])%list.
        rewrite !stdout_of_app, Hout. reflexivity.
      * constructor; [reflexivity|].
        apply Forall_app; split; [apply quiet_map_printed | repeat constructor].
Qed.

Lemma main_prints_descriptions_witness :
  stdout_of (events (main (H := Fixture.libraries)
                       (mkFlags "sa.json" "" "scan.png") Fixture.fresh))
  = "Text:" ++ nl ++ "hello world" ++ nl ++ "hello" ++ nl ++ "world" ++ nl.
Proof.
  destruct (main_prints_descriptions (H := Fixture.libraries)
              (mkFlags "sa.json" "" "scan.png") Fixture.fresh
              [EvNewClient (vision.WithCredentialsFile "sa.json");
               EvOpen "scan.png"; EvRead "scan.png"]
              [EvStdout ("Text:" ++ nl); EvStdout ("hello world" ++ nl);
               EvStdout ("hello" ++ nl); EvStdout ("world" ++ nl); EvClose "scan.png"]
              (vision.mkClient 1) (vision.mkImage "PNG:hello world") None (-1)
              Fixture.annotations)
    as (_ & _ & _ & E).
  - vm_compute. reflexivity.
  - vm_compute. reflexivity.
  - rewrite E. vm_compute. reflexivity.
Defined.

(** C9: every detection [main] issues carries a nil image context (no
    page-segmentation hints) and [maxResults = -1] (no limit on the number
    of results), and every run that ends normally has issued exactly one. *)
Theorem main_detects_all_results `{Collaborators} (flags : Flags) (w : World) :
  (forall cl img ictx n,
      In (EvDetectTexts cl img ictx n) (events (main flags w)) ->
      ictx = None /\ n = -1) /\
  (outcome (main flags w) = Ret tt ->
   exists pre cl img post,
     events (main flags w) = (pre ++ EvDetectTexts cl img None (-1) :: post)%list /\
     Forall (fun e => isDetect e = false) pre /\
     Forall (fun e => isDetect e = false) post).
Proof.
  destruct (main_shape flags w) as [[Hq [c Hc]]|(pre0 & cl0 & img0 & Hpre & Hrun)].
  - split.
    + intros cl img ictx n Hin. rewrite List.Forall_forall in Hq.
      apply Hq in Hin. discriminate.
    + intros Ho. congruence.
  - assert (Hin : forall tail cl img ictx n,
        Forall (fun e => isDetect e = false) tail ->
        In (EvDetectTexts cl img ictx n)
           (pre0 ++ EvDetectTexts cl0 img0 None (-1) :: tail)%list ->
        ictx = None /\ n = -1).
    { intros tail cl img ictx n Ht Hin.
      apply in_app_or in Hin as [Hin|[Hin|Hin]].
      - rewrite List.Forall_forall in Hpre. apply Hpre in Hin. discriminate.
      - injection Hin as _ _ <- <-. auto.
      - rewrite List.Forall_forall in Ht. apply Ht in Hin. discriminate. }
    destruct Hrun as [(err & _ & Ho & Ev0)|(texts0 & _ & Ho & Ev0)]; rewrite Ev0, Ho.
    + split; [| discriminate].
      intros cl img ictx n. apply Hin. repeat constructor.
    + assert (Ht : Forall (fun e => isDetect e = false)
                     (EvStdout ("Text:" ++ nl) :: map printed texts0
                        ++ [EvClose (flagInput flags)])).
      { constructor; [reflexivity|].
        apply Forall_app; split; [apply quiet_map_printed | repeat constructor]. }
      split.
      * intros cl img ictx n. apply Hin. exact Ht.
      * intros _. exists pre0, cl0, img0. eexists. split; [reflexivity|]. auto.
Qed.

Lemma main_detects_all_results_witness :
  exists pre cl img post,
    events (main (H := Fixture.libraries) (mkFlags "sa.json" "" "scan.png") Fixture.fresh)
    = (pre ++ EvDetectTexts cl img None (-1) :: post)%list /\
    Forall (fun e => isDetect e = false) pre /\
    Forall (fun e => isDetect e = false) post.
Proof.
  apply (main_detects_all_results (H := Fixture.libraries)
           (mkFlags "sa.json" "" "scan.png") Fixture.fresh).
  vm_compute. reflexivity.
Defined.

(** * Further properties *)

(** ** What the file operations leave alone *)

Section Frames.

Context `{Collaborators}.

Lemma OpenFile_frame name flag perm w :
  let w' := world (os.OpenFile name flag perm w) in
  readonly w' = readonly w /\ stdin w' = stdin w /\
  forall k, k <> filepath.Clean name -> fs w' !! k = fs w !! k.
Proof.
  cbv zeta. unfold os.OpenFile.
  repeat match goal with
         | |- context [match ?x with _ => _ end] => destruct x eqn:?
         end;
    cbn [world fst snd readonly stdin fs setFs];
    (split; [congruence|]; split; [reflexivity|]; intros k Hk;
     try reflexivity; apply lookup_insert_ne; congruence).
Qed.

Lemma OpenFile_failure_world name flag perm w err :
  outcome (os.OpenFile name flag perm w) = Ret (Err err) ->
  world (os.OpenFile name flag perm w) = w.
Proof.
  unfold os.OpenFile.
  repeat match goal with
         | |- context [match ?x with _ => _ end] => destruct x
         end; cbn [outcome world fst snd]; intros E; try reflexivity; discriminate.
Qed.

Lemma Write_frame f data w :
  let w' := world (os.Write f data w) in
  readonly w' = readonly w /\ stdin w' = stdin w /\
  forall k, k <> f_key f -> fs w' !! k = fs w !! k.
Proof.
  cbv zeta. unfold os.Write.
  repeat match goal with
         | |- context [match ?x with _ => _ end] => destruct x
         end;
    cbn [world fst snd readonly stdin fs];
    (split; [reflexivity|]; split; [reflexivity|]; intros k Hk;
     try reflexivity; apply lookup_insert_ne; congruence).
Qed.

Lemma saveToken_frame file token w :
  let w' := world (saveToken file token w) in
  readonly w' = readonly w /\ stdin w' = stdin w /\
  forall k, k <> filepath.Clean file -> fs w' !! k = fs w !! k.
Proof.
  cbv zeta. rewrite saveToken_run. cbv zeta.
  destruct (OpenFile_frame file saveFlags 0x180 w) as (Hro & Hin & Hfs).
  destruct (OpenFile_outcome file saveFlags 0x180 w) as [(err & -> & _)| ->];
    cbn [world fst snd]; [auto|].
  destruct (Write_frame (mkFile file (filepath.Clean file)) (json_Marshal token ++ nl)
              (world (os.OpenFile file saveFlags 0x180 w))) as (Hro' & Hin' & Hfs').
  cbn [f_key] in Hfs'.
  split; [congruence|]. split; [congruence|].
  intros k Hk. rewrite Hfs' by exact Hk. apply Hfs. exact Hk.
Qed.

End Frames.

(** ** [tokenFromFile] *)




(** ** [saveToken] *)






(** X5: what [saveToken] wrote, [tokenFromFile] reads back: with a codec that
    decodes what it encodes, a writable directory and room for the token,
    the token saved is the token loaded. *)
Theorem saveToken_tokenFromFile `{Collaborators} (token : oauth2.Token) (w : World) :
  json_Decode (json_Marshal token ++ nl) = (token, None) ->
  readonly w = false ->
  fs w !! "credentials" = Some NDir ->
  fs w !! "credentials/cache.json" <> Some NDir ->
  (String.length (json_Marshal token ++ nl) <= space w)%nat ->
  outcome (tokenFromFile "credentials/cache.json"
             (world (saveToken "credentials/cache.json" token w)))
  = Ret (Ok token).
Proof.
  intros Hcodec Hro Hdir Hnd Hsp.
  destruct (saveToken_saves token w Hro Hdir Hnd Hsp) as (_ & _ & Hfile & _).
  rewrite tokenFromFile_run.
  change (filepath.Clean "credentials/cache.json") with cacheFile.
  rewrite stat_cacheFile. unfold cacheFile in *. rewrite Hfile, Hcodec. reflexivity.
Qed.

Lemma saveToken_tokenFromFile_witness :
  outcome (tokenFromFile (H := Fixture.libraries) "credentials/cache.json"
             (world (saveToken (H := Fixture.libraries) "credentials/cache.json"
                       Fixture.token Fixture.stale)))
  = Ret (Ok Fixture.token).
Proof.
  apply (saveToken_tokenFromFile (H := Fixture.libraries) Fixture.token Fixture.stale).
  - vm_compute. reflexivity.
  - reflexivity.
  - vm_compute. reflexivity.
  - vm_compute. discriminate.
  - vm_compute. lia.
Defined.

(** ** [getTokenFromWeb] *)

Lemma skipSpace_blank (l : list ascii) :
  forallb fmt.isSpace l = true -> fmt.skipSpace l = [].
Proof.
  induction l as [|c l IH]; [reflexivity|].
  cbn [forallb fmt.skipSpace]. intros Hall.
  apply andb_prop in Hall as [Hc Hl]. rewrite Hc. apply IH. exact Hl.
Qed.

Lemma scanString_blank (input : string) :
  forallb fmt.isSpace (GoString.bytes input) = true ->
  fmt.scanString input = (Err "EOF", "").
Proof.
  intros Hall. unfold fmt.scanString. rewrite (skipSpace_blank _ Hall). reflexivity.
Qed.

(** X6: [getTokenFromWeb] stays away from the file system, and asks the token
    endpoint only for the code it has read, with the configuration it was
    given.  On an input of white space only (or empty) it ends the process
    on [Unable to read authorization code EOF] without asking at all. *)
Theorem getTokenFromWeb_no_files `{Collaborators} (config : oauth2.Config) (w : World) :
  fs (world (getTokenFromWeb config w)) = fs w /\
  readonly (world (getTokenFromWeb config w)) = readonly w /\
  space (world (getTokenFromWeb config w)) = space w /\
  Forall (fun e => isFileIO e = false) (events (getTokenFromWeb config w)) /\
  (forall c code,
      In (EvExchange c code) (events (getTokenFromWeb config w)) ->
      c = config /\ fst (fmt.scanString (stdin w)) = Ok code) /\
  (forallb fmt.isSpace (GoString.bytes (stdin w)) = true ->
   getTokenFromWeb config w
   = (Exit 1, mkWorld (fs w) (readonly w) (space w) "",
      [prompt config; EvStdin; EvFatal "Unable to read authorization code EOF"])).
Proof.
  rewrite getTokenFromWeb_run. cbv zeta.
  destruct (fmt.scanString (stdin w)) as [[code|err] rest] eqn:Escan; cbn [fst snd].
  - assert (Hblank : forallb fmt.isSpace (GoString.bytes (stdin w)) <> true).
    { intros Hall. rewrite (scanString_blank _ Hall) in Escan. discriminate. }
    destruct (oauth2_Exchange config code) as [tok|err];
      cbn [world events fst snd fs readonly space];
      (repeat (split; [reflexivity|])); (split; [repeat constructor|]);
      (split; [| intros Hall; contradiction]);
      intros c code' [E|[E|[E|Hin]]]; try discriminate;
      try (injection E as <- <-; auto).
    + destruct Hin.
    + destruct Hin as [E|[]]. discriminate.
  - cbn [world events fst snd fs readonly space].
    repeat (split; [reflexivity|]). split; [repeat constructor|].
    split.
    + intros c code [E|[E|[E|[]]]]; discriminate.
    + intros Hall. rewrite (scanString_blank _ Hall) in Escan.
      injection Escan as <- <-. reflexivity.
Qed.

Lemma getTokenFromWeb_no_files_witness :
  getTokenFromWeb (H := Fixture.libraries) Fixture.config Fixture.cached
  = (Exit 1, Fixture.cached,
     [prompt (H := Fixture.libraries) Fixture.config; EvStdin;
      EvFatal "Unable to read authorization code EOF"]).
Proof.
  destruct (getTokenFromWeb_no_files (H := Fixture.libraries) Fixture.config Fixture.cached)
    as (_ & _ & _ & _ & _ & Hblank).
  rewrite Hblank; reflexivity.
Defined.

(** ** [getToken]: what it changes *)

Section GetTokenWorld.

Context `{Collaborators}.

Lemma withCacheDir_other (w : World) (k : string) :
  k <> "credentials" -> withCacheDir w !! k = fs w !! k.
Proof.
  intros Hk. unfold withCacheDir.
  destruct (fs w !! "credentials"); [reflexivity|].
  destruct (readonly w); [reflexivity|].
  apply lookup_insert_ne. congruence.
Qed.

Lemma tokenFromFile_world file w : world (tokenFromFile file w) = w.
Proof.
  rewrite tokenFromFile_run. destruct (os.stat _ _) as [[|data]|]; reflexivity.
Qed.

Lemma saveToken_exit_world file token w c :
  outcome (saveToken file token w) = Exit c ->
  c = 1 /\ world (saveToken file token w) = w.
Proof.
  rewrite saveToken_run. cbv zeta.
  destruct (OpenFile_outcome file saveFlags 0x180 w) as [(err & Ho & Hw)|Ho];
    rewrite Ho; cbn [outcome world fst snd]; intros E; [| discriminate].
  injection E as <-. auto.
Qed.

(** The world [getToken] leaves, by cases on how it went. *)
Lemma getToken_world config w :
  let w0 := setFs w (withCacheDir w) in
  let w1 := mkWorld (withCacheDir w) (readonly w) (space w)
              (snd (fmt.scanString (stdin w))) in
  (exists tok, outcome (getToken config w) = Ret (Ok tok)
               /\ world (getToken config w) = w0)
  \/ (outcome (getToken config w) = Exit 1 /\ world (getToken config w) = w1)
  \/ (exists tok, outcome (getToken config w) = Ret (Ok tok)
                  /\ world (getToken config w) = world (saveToken cacheFile tok w1)).
Proof.
  cbv zeta. rewrite getToken_run. cbv zeta.
  pose proof (tokenFromFile_world cacheFile (setFs w (withCacheDir w))) as Hw.
  destruct (tokenFromFile_outcome cacheFile (setFs w (withCacheDir w))) as [r Hr].
  destruct (tokenFromFile cacheFile _) as [[o w1] t1].
  cbn [outcome world fst snd] in Hw, Hr. subst o w1.
  destruct r as [tok|err]; [left; exists tok; split; reflexivity|].
  rewrite getTokenFromWeb_run. cbv zeta. cbn [fs readonly space stdin setFs].
  destruct (fst (fmt.scanString (stdin w))) as [code|e];
    [| right; left; split; reflexivity].
  destruct (oauth2_Exchange config code) as [tok|e];
    [| right; left; split; reflexivity].
  set (w1 := mkWorld (withCacheDir w) (readonly w) (space w)
               (snd (fmt.scanString (stdin w)))).
  pose proof (saveToken_exit_world cacheFile tok w1) as Hexit.
  destruct (saveToken cacheFile tok w1) as [[[[]|c] w3] t3] eqn:Es;
    cbn [outcome world fst snd] in *.
  - right. right. exists tok. rewrite Es. split; reflexivity.
  - destruct (Hexit c eq_refl) as [-> ->]. right. left. split; reflexivity.
Qed.

End GetTokenWorld.

(** X7: [getToken] changes no file but the cache directory and the cache file,
    and leaves the file system writable or read-only as it was. *)
Theorem getToken_frame `{Collaborators} (config : oauth2.Config) (w : World) (k : string) :
  k <> "credentials" -> k <> "credentials/cache.json" ->
  fs (world (getToken config w)) !! k = fs w !! k /\
  readonly (world (getToken config w)) = readonly w.
Proof.
  intros Hdir Hfile.
  destruct (getToken_world config w) as [(tok & _ & ->)|[[_ ->]|(tok & _ & ->)]];
    cbv zeta; cbn [fs readonly setFs].
  - split; [apply withCacheDir_other; exact Hdir | reflexivity].
  - split; [apply withCacheDir_other; exact Hdir | reflexivity].
  - destruct (saveToken_frame cacheFile tok
                (mkWorld (withCacheDir w) (readonly w) (space w)
                   (snd (fmt.scanString (stdin w))))) as (Hro & _ & Hfs).
    cbn [fs readonly] in Hro, Hfs. split; [| exact Hro].
    rewrite Hfs by exact Hfile. apply withCacheDir_other. exact Hdir.
Qed.

Lemma getToken_frame_witness :
  fs (world (getToken (H := Fixture.libraries) Fixture.config Fixture.fresh)) !! "scan.png"
  = Some (NFile "PNG:hello world").
Proof.
  destruct (getToken_frame (H := Fixture.libraries) Fixture.config Fixture.fresh "scan.png")
    as [Hfs _].
  - discriminate.
  - discriminate.
  - rewrite Hfs. vm_compute. reflexivity.
Defined.

(** X8: when [getToken] ends the process, the exit status is 1 and the cache
    file is as it was: there is no half-written cache after a failed
    authorization. *)
Theorem getToken_fatal_keeps_cache `{Collaborators} (config : oauth2.Config) (w : World)
    (c : Z) :
  outcome (getToken config w) = Exit c ->
  c = 1 /\
  fs (world (getToken config w)) !! "credentials/cache.json"
  = fs w !! "credentials/cache.json".
Proof.
  intros Hexit.
  destruct (getToken_world config w) as [(tok & Ho & _)|[[Ho ->]|(tok & Ho & _)]];
    rewrite Ho in Hexit; try discriminate.
  injection Hexit as <-. split; [reflexivity|].
  cbn [fs]. apply withCacheDir_cacheFile.
Qed.

Lemma getToken_fatal_keeps_cache_witness :
  fs (world (getToken (H := Fixture.libraries) Fixture.config
               (mkWorld (fs Fixture.stale) false 4096 "")))
    !! "credentials/cache.json"
  = Some (NFile "{access_tok").
Proof.
  destruct (getToken_fatal_keeps_cache (H := Fixture.libraries) Fixture.config
              (mkWorld (fs Fixture.stale) false 4096 "") 1) as [_ Hfile].
  - vm_compute. reflexivity.
  - rewrite Hfile. vm_compute. reflexivity.
Defined.

(** X9: the cache works: after a run of [getToken] that went through the
    interactive flow and saved the token, with a codec that decodes what it
    encodes, the next run returns the same token from the file, prints
    nothing, reads nothing from standard input, calls no service and leaves
    the world as it is. *)
Theorem getToken_second_run `{Collaborators} (config config' : oauth2.Config) (w : World)
    (code : string) (tok : oauth2.Token) :
  cacheMiss w ->
  fst (fmt.scanString (stdin w)) = Ok code ->
  oauth2_Exchange config code = Ok tok ->
  readonly w = false ->
  (forall data, fs w !! "credentials" <> Some (NFile data)) ->
  (String.length (json_Marshal tok ++ nl) <= space w)%nat ->
  json_Decode (json_Marshal tok ++ nl) = (tok, None) ->
  getToken config' (world (getToken config w))
  = (Ret (Ok tok), world (getToken config w),
     [EvMkdirAll "./credentials" 0x1c0; EvOpen "credentials/cache.json";
      EvRead "credentials/cache.json"; EvClose "credentials/cache.json"]).
Proof.
  intros Hmiss Hscan Hex Hro Hdir Hsp Hcodec.
  set (w1 := mkWorld (withCacheDir w) (readonly w) (space w)
               (snd (fmt.scanString (stdin w)))).
  assert (Hfirst : world (getToken config w) = world (saveToken cacheFile tok w1)).
  { destruct (tokenFromFile_miss w Hmiss) as (err & probe & Hprobe & _).
    rewrite getToken_run. cbv zeta. rewrite Hprobe.
    rewrite getTokenFromWeb_run. cbv zeta. cbn [fs readonly space stdin setFs].
    rewrite Hscan, Hex. fold w1.
    destruct (saveToken cacheFile tok w1) as [[[[]|c] w3] t3]; reflexivity. }
  rewrite Hfirst.
  assert (Hd1 : fs w1 !! "credentials" = Some NDir)
    by (apply withCacheDir_dir; assumption).
  assert (Hn1 : fs w1 !! cacheFile <> Some NDir).
  { cbn [fs w1]. rewrite withCacheDir_cacheFile.
    destruct Hmiss as [-> | (data & e & -> & _)]; discriminate. }
  destruct (saveToken_saves tok w1 Hro Hd1 Hn1 Hsp) as (_ & _ & Hfile & _).
  destruct (saveToken_frame cacheFile tok w1) as (_ & _ & Hfs).
  assert (Hd2 : fs (world (saveToken cacheFile tok w1)) !! "credentials" = Some NDir).
  { rewrite Hfs by discriminate. exact Hd1. }
  set (w2 := world (saveToken cacheFile tok w1)) in *.
  assert (Hsame : setFs w2 (withCacheDir w2) = w2).
  { unfold withCacheDir. rewrite Hd2. destruct w2; reflexivity. }
  rewrite getToken_run. cbv zeta. rewrite Hsame, tokenFromFile_run.
  change (filepath.Clean cacheFile) with cacheFile.
  rewrite stat_cacheFile, Hfile, Hcodec. reflexivity.
Qed.

Lemma getToken_second_run_witness :
  outcome (getToken (H := Fixture.libraries) Fixture.config
             (world (getToken (H := Fixture.libraries) Fixture.config Fixture.fresh)))
  = Ret (Ok Fixture.token).
Proof.
  rewrite (getToken_second_run (H := Fixture.libraries) Fixture.config Fixture.config
             Fixture.fresh "4/P7q7W91a" Fixture.token).
  - reflexivity.
  - left. vm_compute. reflexivity.
  - vm_compute. reflexivity.
  - vm_compute. reflexivity.
  - reflexivity.
  - intros data. vm_compute. discriminate.
  - vm_compute. lia.
  - vm_compute. reflexivity.
Defined.

(** ** Every failure is fatal, once, and last *)

Section Discipline.

Context `{Collaborators}.








End Discipline.




Section ProgramDiscipline.

Context `{Collaborators}.





End ProgramDiscipline.


(** ** [visionClient] and [main]: the two credential paths *)

Section MainRuns.

Context `{Collaborators}.

Lemma visionClient_serviceAccount flags w :
  flagServiceAccount flags <> "" ->
  visionClient flags w
  = (Ret (vision_NewClient (vision.WithCredentialsFile (flagServiceAccount flags)) (fs w)),
     w, [EvNewClient (vision.WithCredentialsFile (flagServiceAccount flags))]).
Proof.
  intros Hsa. apply isEmpty_false in Hsa.
  unfold visionClient. rewrite Hsa. reflexivity.
Qed.

Lemma afterClient_unattended flags cl w :
  Forall (fun e => unattended e = true) (snd (afterClient flags cl w)).
Proof.
  unfold afterClient.
  destruct (os.stat _ _) as [[|data]|]; cbn [snd]; try (repeat constructor).
  destruct (vision_Annotate _ _ _ _) as [texts|err]; cbn [snd]; [| repeat constructor].
  repeat (constructor; [reflexivity|]).
  apply Forall_app; split; [| repeat constructor].
  induction texts; constructor; auto.
Qed.

Lemma visionClient_world flags w :
  world (visionClient flags w) = w
  \/ exists config, world (visionClient flags w) = world (getToken config w).
Proof.
  destruct (flagServiceAccount flags) as [|a sa] eqn:Hsa.
  - rewrite (visionClient_clientID flags w Hsa). cbv zeta.
    destruct (os.stat _ _) as [[|b]|]; [left; reflexivity | | left; reflexivity].
    destruct (google_ConfigFromJSON _ _) as [config|err]; [| left; reflexivity].
    right. exists config.
    destruct (getToken config w) as [[[[tok|err]|c] w1] t1]; reflexivity.
  - left. rewrite visionClient_serviceAccount by (rewrite Hsa; discriminate).
    reflexivity.
Qed.

Lemma main_world flags w :
  world (main flags w) = w \/ world (main flags w) = world (visionClient flags w).
Proof.
  destruct (flags_dec flags) as [[Hcred Hin]|Hbad].
  - right. rewrite (main_accepted flags w Hcred Hin).
    destruct (visionClient flags w) as [[[[cl|err]|c] w1] t1]; reflexivity.
  - left. destruct (main_rejected flags w Hbad) as [msg ->]. reflexivity.
Qed.

End MainRuns.



(** X12: with a service account the run is unattended and changes nothing:
    whatever the other flags, standard input is not read, no file is created
    or written, no client-ID file is read, no token is exchanged, and the
    world at the end is the world at the start. *)
Theorem main_service_account_unattended `{Collaborators} (flags : Flags) (w : World) :
  flagServiceAccount flags <> "" ->
  world (main flags w) = w /\
  Forall (fun e => unattended e = true) (events (main flags w)).
Proof.
  intros Hsa.
  destruct (flags_dec flags) as [[Hcred Hin]|Hbad].
  - rewrite (main_accepted flags w Hcred Hin), (visionClient_serviceAccount flags w Hsa).
    destruct (vision_NewClient _ (fs w)) as [cl|err]; cbn [world events fst snd].
    + split; [reflexivity|]. constructor; [reflexivity|]. apply afterClient_unattended.
    + split; [reflexivity | repeat constructor].
  - destruct (main_rejected flags w Hbad) as [msg ->].
    split; [reflexivity | repeat constructor].
Qed.

Lemma main_service_account_unattended_witness :
  world (main (H := Fixture.libraries) (mkFlags "sa.json" "" "scan.png") Fixture.fresh)
  = Fixture.fresh.
Proof.
  apply (main_service_account_unattended (H := Fixture.libraries)
           (mkFlags "sa.json" "" "scan.png") Fixture.fresh).
  discriminate.
Defined.



(** X14: what is sent to the detection is the input file, byte for byte: the
    image of every detection [main] issues holds exactly what the file at
    [-input] holds. *)
Theorem main_submits_file_bytes `{Collaborators} (flags : Flags) (w : World)
    cl img ictx n :
  In (EvDetectTexts cl img ictx n) (events (main flags w)) ->
  os.stat (fs (world (main flags w))) (filepath.Clean (flagInput flags))
  = Some (NFile (vision.Content img)).
Proof.
  intros Hin.
  destruct (flags_dec flags) as [[Hcred Hinput]|Hbad].
  2:{ destruct (main_rejected flags w Hbad) as [msg E]. rewrite E in Hin.
      destruct Hin as [Hin|[]]. discriminate. }
  rewrite (main_accepted flags w Hcred Hinput) in Hin |- *.
  pose proof (visionClient_emits flags w) as Hq.
  rewrite List.Forall_forall in Hq.
  assert (Hpre : ~ In (EvDetectTexts cl img ictx n) (events (visionClient flags w))).
  { intros Hpre. apply Hq in Hpre. discriminate. }
  destruct (visionClient flags w) as [[[[cl0|err]|c] w1] t1];
    cbn [events world fst snd] in *.
  - apply in_app_or in Hin as [Hin|Hin]; [contradiction|].
    unfold afterClient in Hin.
    destruct (os.stat (fs w1) (filepath.Clean (flagInput flags))) as [[|data]|];
      cbn [snd] in Hin.
    + destruct Hin as [E|[E|[E|[]]]]; discriminate.
    + destruct (vision_Annotate cl0 _ None (-1)) as [texts|e]; cbn [snd] in Hin.
      * destruct Hin as [E|[E|[E|[E|Hin]]]]; try discriminate.
        -- injection E as _ <- _ _. reflexivity.
        -- exfalso. simpl in Hin. apply in_app_or in Hin as [Hin|Hin].
           ++ apply in_map_iff in Hin as (t & E & _). discriminate.
           ++ destruct Hin as [E|Hin]; [discriminate | destruct Hin].
      * destruct Hin as [E|[E|[E|[E|[]]]]]; try discriminate.
        injection E as _ <- _ _. reflexivity.
    + destruct Hin as [E|[E|[]]]; discriminate.
  - apply in_app_or in Hin as [Hin|Hin]; [contradiction|].
    destruct Hin as [E|Hin]; [discriminate | destruct Hin].
  - contradiction.
Qed.

Lemma main_submits_file_bytes_witness :
  os.stat (fs (world (main (H := Fixture.libraries)
                        (mkFlags "" "client.json" "scan.png") Fixture.fresh)))
    (filepath.Clean "scan.png")
  = Some (NFile "PNG:hello world").
Proof.
  apply (main_submits_file_bytes (H := Fixture.libraries)
           (mkFlags "" "client.json" "scan.png") Fixture.fresh
           (vision.mkClient 2) (vision.mkImage "PNG:hello world") None (-1)).
  vm_compute. do 13 right. left. reflexivity.
Defined.

(** X15: [main] changes no file but the token cache: every path other than the
    cache directory and the cache file holds at the end what it held at the
    start, the image and the credential files among them. *)
Theorem main_frame `{Collaborators} (flags : Flags) (w : World) (k : string) :
  k <> "credentials" -> k <> "credentials/cache.json" ->
  fs (world (main flags w)) !! k = fs w !! k.
Proof.
  intros Hdir Hfile.
  destruct (main_world flags w) as [-> | ->]; [reflexivity|].
  destruct (visionClient_world flags w) as [-> | [config ->]]; [reflexivity|].
  destruct (getToken_world config w) as [(tok & _ & ->)|[[_ ->]|(tok & _ & ->)]];
    cbv zeta; cbn [fs setFs].
  - apply withCacheDir_other; exact Hdir.
  - apply withCacheDir_other; exact Hdir.
  - destruct (saveToken_frame cacheFile tok
                (mkWorld (withCacheDir w) (readonly w) (space w)
                   (snd (fmt.scanString (stdin w))))) as (_ & _ & Hfs).
    cbn [fs] in Hfs. rewrite Hfs by exact Hfile. apply withCacheDir_other. exact Hdir.
Qed.

Lemma main_frame_witness :
  fs (world (main (H := Fixture.libraries) (mkFlags "" "client.json" "scan.png")
               Fixture.fresh)) !! "client.json"
  = Some (NFile "client-id-json").
Proof.
  rewrite (main_frame (H := Fixture.libraries) (mkFlags "" "client.json" "scan.png")
             Fixture.fresh "client.json").
  - vm_compute. reflexivity.
  - discriminate.
  - discriminate.
Defined.

(** ** No results on a failed run *)

Ltac stdout_cases Hin :=
  simpl in Hin;
  repeat (destruct Hin as [?E|Hin];
          [ try discriminate; try (injection E as <-; auto; fail) |]);
  try (destruct Hin).

Section Output.

Context `{Collaborators}.

Lemma getToken_stdout config w s :
  In (EvStdout s) (events (getToken config w)) ->
  EvStdout s = prompt config
  \/ s = "Saving credential file to: credentials/cache.json" ++ nl.
Proof.
  rewrite getToken_run. cbv zeta. rewrite tokenFromFile_run.
  assert (Hweb : forall w1 tok w2 t2,
             getTokenFromWeb config w1 = (Ret tok, w2, t2) ->
             t2 = [prompt config; EvStdin;
                   EvExchange config
                     match fst (fmt.scanString (stdin w1)) with Ok c => c | Err _ => "" end]).
  { intros w1 tok w2 t2. rewrite getTokenFromWeb_run. cbv zeta.
    destruct (fst (fmt.scanString (stdin w1))) as [code|e]; [| discriminate].
    destruct (oauth2_Exchange config code); [| discriminate].
    intros E. injection E as _ _ <-. reflexivity. }
  assert (Hfail : forall w1 c w2 t2,
             getTokenFromWeb config w1 = (Exit c, w2, t2) ->
             forall s', In (EvStdout s') t2 -> EvStdout s' = prompt config).
  { intros w1 c w2 t2. rewrite getTokenFromWeb_run. cbv zeta.
    destruct (fst (fmt.scanString (stdin w1))) as [code|e].
    - destruct (oauth2_Exchange config code); [discriminate|].
      intros E. injection E as _ _ <-. intros s' Hin. stdout_cases Hin.
    - intros E. injection E as _ _ <-. intros s' Hin. stdout_cases Hin. }
  assert (Hsave : forall tok w2 s',
             In (EvStdout s') (events (saveToken cacheFile tok w2)) ->
             s' = "Saving credential file to: credentials/cache.json" ++ nl).
  { intros tok w2 s'. rewrite saveToken_run. cbv zeta.
    destruct (OpenFile_outcome cacheFile saveFlags 0x180 w2) as [(err & -> & _)| ->];
      cbn [events snd f_name]; intros Hin; stdout_cases Hin;
      injection E as <-; reflexivity. }
  assert (Hmiss : forall probe w1,
             (forall s', ~ In (EvStdout s') probe) ->
             In (EvStdout s)
               (events
                  match getTokenFromWeb config w1 with
                  | (Ret tok, w2, t2) =>
                      match saveToken cacheFile tok w2 with
                      | (Ret _, w3, t3) =>
                          (Ret (Ok tok), w3,
                           EvMkdirAll "./credentials" 0x1c0 :: (probe ++ t2 ++ t3)%list)
                      | (Exit c, w3, t3) =>
                          (Exit c, w3,
                           EvMkdirAll "./credentials" 0x1c0 :: (probe ++ t2 ++ t3)%list)
                      end
                  | (Exit c, w2, t2) =>
                      (Exit c, w2, EvMkdirAll "./credentials" 0x1c0 :: (probe ++ t2)%list)
                  end) ->
             EvStdout s = prompt config
             \/ s = "Saving credential file to: credentials/cache.json" ++ nl).
  { intros probe w1 Hprobe.
    destruct (getTokenFromWeb config w1) as [[[tok|c] w2] t2] eqn:Ew.
    - rewrite (Hweb _ _ _ _ Ew).
      pose proof (Hsave tok w2 s) as Hs.
      destruct (saveToken cacheFile tok w2) as [[[[]|c] w3] t3];
        cbn [events snd] in *; intros [E|Hin]; try discriminate;
        apply in_app_or in Hin as [Hin|Hin]; try (exfalso; exact (Hprobe s Hin));
        apply in_app_or in Hin as [Hin|Hin]; try (right; exact (Hs Hin));
        stdout_cases Hin; left; exact E.
    - cbn [events snd]. intros [E|Hin]; [discriminate|].
      apply in_app_or in Hin as [Hin|Hin]; [exfalso; exact (Hprobe s Hin)|].
      left. exact (Hfail _ _ _ _ Ew s Hin). }
  destruct (os.stat _ (filepath.Clean cacheFile)) as [[|data]|].
  - apply Hmiss. intros s' Hin. stdout_cases Hin.
  - destruct (json_Decode data) as [t [err|]].
    + apply Hmiss. intros s' Hin. stdout_cases Hin.
    + cbn [events snd]. intros Hin. stdout_cases Hin.
  - apply Hmiss. intros s' Hin. stdout_cases Hin.
Qed.

Lemma visionClient_stdout flags w s :
  In (EvStdout s) (events (visionClient flags w)) ->
  (exists config, EvStdout s = prompt config)
  \/ s = "Saving credential file to: credentials/cache.json" ++ nl.
Proof.
  destruct (flagServiceAccount flags) as [|a sa] eqn:Hsa.
  - rewrite (visionClient_clientID flags w Hsa). cbv zeta.
    destruct (os.stat _ _) as [[|b]|]; cbn [events snd];
      try (intros Hin; stdout_cases Hin; fail).
    destruct (google_ConfigFromJSON _ _) as [config|err]; cbn [events snd];
      try (intros Hin; stdout_cases Hin; fail).
    pose proof (getToken_stdout config w s) as Hg.
    destruct (getToken config w) as [[[[tok|err]|c] w1] t1]; cbn [events snd] in *;
      intros [E|Hin]; try discriminate.
    + apply in_app_or in Hin as [Hin|Hin]; [| stdout_cases Hin].
      destruct (Hg Hin) as [E|E]; [left; exists config; exact E | right; exact E].
    + destruct (Hg Hin) as [E|E]; [left; exists config; exact E | right; exact E].
    + destruct (Hg Hin) as [E|E]; [left; exists config; exact E | right; exact E].
  - rewrite visionClient_serviceAccount by (rewrite Hsa; discriminate).
    cbn [events snd]. intros Hin. stdout_cases Hin.
Qed.

End Output.

(** X16: no partial output: when [main] ends the process, all that standard
    output can hold is what resolving the token printed, the authorization
    prompt and the notice that the token is being saved.  The line [Text:]
    is printed in runs that end normally and in no other. *)
Theorem main_no_partial_output `{Collaborators} (flags : Flags) (w : World) (c : Z) :
  outcome (main flags w) = Exit c ->
  (forall s,
      In (EvStdout s) (events (main flags w)) ->
      (exists config, EvStdout s = prompt config)
      \/ s = "Saving credential file to: credentials/cache.json" ++ nl) /\
  ~ In (EvStdout ("Text:" ++ nl)) (events (main flags w)).
Proof.
  intros Hexit.
  assert (Hall : forall s,
             In (EvStdout s) (events (main flags w)) ->
             (exists config, EvStdout s = prompt config)
             \/ s = "Saving credential file to: credentials/cache.json" ++ nl).
  { intros s.
    destruct (flags_dec flags) as [[Hcred Hin]|Hbad].
    2:{ destruct (main_rejected flags w Hbad) as [msg ->]. cbn [events snd].
        intros Hs. stdout_cases Hs. }
    rewrite (main_accepted flags w Hcred Hin) in Hexit |- *.
    pose proof (visionClient_stdout flags w s) as Hv.
    destruct (visionClient flags w) as [[[[cl|err]|c0] w1] t1];
      cbn [outcome events fst snd] in *.
    - intros Hs. apply in_app_or in Hs as [Hs|Hs]; [exact (Hv Hs)|].
      exfalso. unfold afterClient in Hexit, Hs.
      destruct (os.stat _ _) as [[|data]|]; cbn [fst snd] in *;
        try (stdout_cases Hs; fail).
      destruct (vision_Annotate _ _ _ _) as [texts|e]; cbn [fst snd] in *;
        [discriminate | stdout_cases Hs].
    - intros Hs. apply in_app_or in Hs as [Hs|Hs]; [exact (Hv Hs) | stdout_cases Hs].
    - exact Hv. }
  split; [exact Hall|].
  intros Hin. destruct (Hall _ Hin) as [[config E]|E].
  - unfold prompt in E. injection E as E. vm_compute in E. discriminate.
  - vm_compute in E. discriminate.
Qed.

Lemma main_no_partial_output_witness :
  ~ In (EvStdout ("Text:" ++ nl))
      (events (main (H := Fixture.libraries) (mkFlags "" "client.json" "missing.png")
                 Fixture.fresh)).
Proof.
  apply (main_no_partial_output (H := Fixture.libraries)
           (mkFlags "" "client.json" "missing.png") Fixture.fresh 1).
  vm_compute. reflexivity.
Defined.
